(** * Voice-clone TTS backend: the [/synthesize] pipeline of [app/main.py]

    A shallow embedding of the request handler [synthesize_endpoint] and of
    the helpers it calls, with the temporary-file store, the process
    environment and the provider SDK made explicit as state and as a
    per-request description of what the outside world answers. *)

From Stdlib Require Import ZArith Ascii String Lia.
From stdpp Require Import base option list gmap strings.
From Equations Require Import Equations.

Local Open Scope Z_scope.

(** ** Python strings *)

Module PyStr.

(** The double-quote character. *)
Definition dquote : string := String "034"%char EmptyString.

Fixpoint mem (c : ascii) (s : string) : bool :=
  match s with
  | EmptyString => false
  | String a s' => if Ascii.eqb a c then true else mem c s'
  end.

(** [s[n:]] *)
Fixpoint drop (n : nat) (s : string) : string :=
  match n, s with
  | O, _ => s
  | S _, EmptyString => EmptyString
  | S n', String _ s' => drop n' s'
  end.

(** [s[:n]] *)
Fixpoint take (n : nat) (s : string) : string :=
  match n, s with
  | O, _ => EmptyString
  | S _, EmptyString => EmptyString
  | S n', String a s' => String a (take n' s')
  end.

(** Index of the last occurrence of [c], if there is one. *)
Fixpoint rindex (c : ascii) (s : string) : option nat :=
  match s with
  | EmptyString => None
  | String a s' =>
      match rindex c s' with
      | Some i => Some (S i)
      | None => if Ascii.eqb a c then Some O else None
      end
  end.

(** [s.rfind(c)]: the index of the last occurrence, [-1] without one. *)
Definition rfind (c : ascii) (s : string) : Z :=
  match rindex c s with
  | Some i => Z.of_nat i
  | None => -1
  end.

(** [s[i:i+1] != c]; past the end the slice is empty, hence different. *)
Definition char_differs (s : string) (i : nat) (c : ascii) : bool :=
  match String.get i s with
  | Some a => negb (Ascii.eqb a c)
  | None => true
  end.

Definition startswith (c : ascii) (s : string) : bool :=
  match s with
  | String a _ => Ascii.eqb a c
  | EmptyString => false
  end.

Fixpoint endswith (c : ascii) (s : string) : bool :=
  match s with
  | EmptyString => false
  | String a EmptyString => Ascii.eqb a c
  | String _ s' => endswith c s'
  end.

Definition is_empty (s : string) : bool :=
  match s with EmptyString => true | _ => false end.

End PyStr.

(** ** [os.path] (POSIX flavour) *)

Module OsPath.

(** The [while filenameIndex < dotIndex] loop of [genericpath._splitext]:
    looks for a character that is not a dot in [p[i:dot]]; [n] counts the
    positions left, [dot - i]. *)
Fixpoint has_non_dot (p : string) (i n : nat) : bool :=
  match n with
  | O => false
  | S n' => if PyStr.char_differs p i "."%char then true
            else has_non_dot p (S i) n'
  end.

(** [os.path.splitext(p)] *)
Definition splitext (p : string) : string * string :=
  let sepIndex := PyStr.rfind "/"%char p in
  let dotIndex := PyStr.rfind "."%char p in
  if (sepIndex <? dotIndex)
     && has_non_dot p (Z.to_nat (sepIndex + 1)) (Z.to_nat (dotIndex - (sepIndex + 1)))
  then (PyStr.take (Z.to_nat dotIndex) p, PyStr.drop (Z.to_nat dotIndex) p)
  else (p, EmptyString).

(** [os.path.basename(p)] *)
Definition basename (p : string) : string :=
  PyStr.drop (Z.to_nat (PyStr.rfind "/"%char p + 1)) p.

(** [os.path.join(a, b)] *)
Definition join (a b : string) : string :=
  if PyStr.startswith "/"%char b then b
  else if PyStr.is_empty a || PyStr.endswith "/"%char a then a +:+ b
  else a +:+ "/" +:+ b.

End OsPath.

(** ** Python values: bytes, exceptions, [int()] *)

Abbreviation bytes := (list Byte.byte).

(** [len(b)] and [os.path.getsize] count bytes. *)
Definition len (b : bytes) : Z := Z.of_nat (length b).

(** The exceptions that reach the handler's [except Exception] clauses.
    Every class but [HTTPException] carries the text [str(e)] gives. *)
Inductive exception :=
| HTTPException (status_code : Z) (detail : string)
| RuntimeError (msg : string)
| ValueError (msg : string)
| TypeError (msg : string)
| OSError (msg : string)
| ApiError (msg : string).

Module PyInt.

(** The value of a decimal digit, from its code. *)
Definition digit (c : ascii) : option Z :=
  let n := Z.of_nat (nat_of_ascii c) in
  if (48 <=? n) && (n <=? 57) then Some (n - 48) else None.

(** The character of a digit value. *)
Definition digit_char (d : Z) : ascii := ascii_of_nat (Z.to_nat (48 + d)).

(** Decimal digits of a positive number, most significant first; [fuel]
    bounds the number of digits. *)
Fixpoint digits_of (fuel : nat) (n : Z) (acc : string) : string :=
  match fuel with
  | O => acc
  | S fuel' =>
      let acc' := String (digit_char (n mod 10)) acc in
      if n <? 10 then acc' else digits_of fuel' (n / 10) acc'
  end.

(** [str(n)] for an integer. *)
Definition to_string (n : Z) : string :=
  match n with
  | Z0 => "0"
  | Zpos p => digits_of (Pos.to_nat (Pos.size p)) n EmptyString
  | Zneg p => String "-"%char (digits_of (Pos.to_nat (Pos.size p)) (Zpos p) EmptyString)
  end.

(** ASCII white space as [int()] skips it. *)
Definition is_space (c : ascii) : bool :=
  let n := Z.of_nat (nat_of_ascii c) in
  ((9 <=? n) && (n <=? 13)) || ((28 <=? n) && (n <=? 32)).

Fixpoint lstrip (s : string) : string :=
  match s with
  | String c s' => if is_space c then lstrip s' else s
  | EmptyString => EmptyString
  end.

Fixpoint rstrip (s : string) : string :=
  match s with
  | EmptyString => EmptyString
  | String c s' =>
      match rstrip s' with
      | EmptyString => if is_space c then EmptyString else String c EmptyString
      | r => String c r
      end
  end.

(** Digits with single underscores between them; [prev_us] says that the
    previous character was an underscore. *)
Fixpoint digits (acc : Z) (prev_us : bool) (s : string) : option Z :=
  match s with
  | EmptyString => if prev_us then None else Some acc
  | String c s' =>
      match digit c with
      | Some d => digits (10 * acc + d) false s'
      | None =>
          if Ascii.eqb c "_"%char && negb prev_us then digits acc true s'
          else None
      end
  end.

Definition unsigned (s : string) : option Z :=
  match s with
  | String c s' =>
      match digit c with
      | Some d => digits d false s'
      | None => None
      end
  | EmptyString => None
  end.

(** [int(s)] for an ASCII string, base 10; [None] where Python raises
    [ValueError]. *)
Definition of_string (s : string) : option Z :=
  match rstrip (lstrip s) with
  | String "+"%char s' => unsigned s'
  | String "-"%char s' => Z.opp <$> unsigned s'
  | s' => unsigned s'
  end.

End PyInt.

(** [str(e)].  Starlette's [HTTPException.__str__] gives
    ["<status_code>: <detail>"]. *)
Definition str (e : exception) : string :=
  match e with
  | HTTPException status_code detail =>
      PyInt.to_string status_code +:+ ": " +:+ detail
  | RuntimeError msg | ValueError msg | TypeError msg
  | OSError msg | ApiError msg => msg
  end.

(** ** The world a request runs in *)

Inductive result (A : Type) :=
| Return (a : A)
| Raise (e : exception).
Arguments Return {A} a.
Arguments Raise {A} e.

(** What the handler did that leaves no other trace in the state. *)
Inductive event :=
| Created (path : string)
| Removed (path : string)
| IvcCreate (name : string) (files : list bytes)
| TtsConvert (text voice_id model_id output_format : string).

Record state := mkState {
  fs : gmap string bytes;          (* the files, by path *)
  environ : gmap string string;    (* os.environ *)
  tempdir : string;                (* tempfile.gettempdir() *)
  tasks : list (option string);    (* background_tasks: the argument of each
                                      queued _remove_file call, oldest first *)
  log : list event                 (* newest first *)
}.

Definition set_fs (f : gmap string bytes → gmap string bytes) (s : state) : state :=
  mkState (f (fs s)) (environ s) (tempdir s) (tasks s) (log s).

Definition add_log (ev : event) (s : state) : state :=
  mkState (fs s) (environ s) (tempdir s) (tasks s) (ev :: log s).

Definition push_task (arg : option string) (s : state) : state :=
  mkState (fs s) (environ s) (tempdir s) (tasks s ++ [arg]) (log s).

(** The object [elevenlabs.voices.ivc.create] returns. *)
Record voice := mkVoice { voice_id : string }.

(** What is outside the process answers during one request. *)
Record outside := mkOutside {
  (* the names tempfile's random generator proposes, in order, when the
     reference file and the output file are created *)
  ref_names : list string;
  out_names : list string;
  (* whether the k-th tmp.write of the upload copy fails (disk full, ...) *)
  write_error : nat → option exception;
  (* the provider: voices.ivc.create(name=, files=) *)
  ivc_create : string → list bytes → result voice;
  (* the provider: text_to_speech.convert(text=, voice_id=, model_id=,
     output_format=); the chunks the returned iterator yields and the
     exception that ends the iteration, if any *)
  tts_convert : string → string → string → string →
                result (list bytes * option exception)
}.

(** Computations: state passing, with exceptions. *)
Definition M (A : Type) : Type := state → result A * state.

Definition ret {A} (a : A) : M A := fun s => (Return a, s).
Definition raise {A} (e : exception) : M A := fun s => (Raise e, s).
Definition bind {A B} (m : M A) (k : A → M B) : M B :=
  fun s => match m s with
           | (Return a, s') => k a s'
           | (Raise e, s') => (Raise e, s')
           end.
Definition lift {A} (r : result A) : M A := fun s => (r, s).
Definition get_state : M state := fun s => (Return s, s).
Definition modify (f : state → state) : M unit := fun s => (Return tt, f s).

(** [try: m  except Exception as e: h e] *)
Definition try_except {A} (m : M A) (h : exception → M A) : M A :=
  fun s => match m s with
           | (Return a, s') => (Return a, s')
           | (Raise e, s') => h e s'
           end.

(** [try: m  finally: f] *)
Definition try_finally {A} (m : M A) (f : M unit) : M A :=
  fun s => match m s with
           | (r, s') =>
               match f s' with
               | (Return _, s'') => (r, s'')
               | (Raise e, s'') => (Raise e, s'')
               end
           end.

Notation "'let*' x ':=' m 'in' k" := (bind m (fun x => k))
  (at level 10, x pattern, m at level 100, k at level 200).

(** *** Files *)

Module Os.

(** [os.path.exists(path)] *)
Definition path_exists (path : string) : M bool :=
  fun s => (Return (bool_decide (is_Some (fs s !! path))), s).

(** [os.path.getsize(path)] *)
Definition getsize (path : string) : M Z :=
  fun s => match fs s !! path with
           | Some content => (Return (len content), s)
           | None => (Raise (OSError ("[Errno 2] No such file or directory: " +:+ path)), s)
           end.

(** [os.remove(path)] *)
Definition remove (path : string) : M unit :=
  fun s => match fs s !! path with
           | Some _ => (Return tt, add_log (Removed path) (set_fs (delete path) s))
           | None => (Raise (OSError ("[Errno 2] No such file or directory: " +:+ path)), s)
           end.

(** [open(path, "rb").read()] *)
Definition read_file (path : string) : M bytes :=
  fun s => match fs s !! path with
           | Some content => (Return content, s)
           | None => (Raise (OSError ("[Errno 2] No such file or directory: " +:+ path)), s)
           end.

(** [open(path, "wb")]: the file is created, or emptied. *)
Definition open_wb (path : string) : M unit :=
  modify (set_fs (insert path [])).

(** [f.write(chunk)] on a file written front to back. *)
Definition append (path : string) (chunk : bytes) : M unit :=
  modify (set_fs (fun m => <[path := default [] (m !! path) ++ chunk]> m)).

End Os.

Module Tempfile.

(** The loop of [tempfile._mkstemp_inner]: the first proposed name whose
    path is free. *)
Fixpoint free_name (m : gmap string bytes) (dir pre suf : string)
    (names : list string) : option string :=
  match names with
  | [] => None
  | name :: names' =>
      let file := OsPath.join dir (pre +:+ name +:+ suf) in
      match m !! file with
      | Some _ => free_name m dir pre suf names'
      | None => Some file
      end
  end.

(** [tempfile.NamedTemporaryFile(delete=False, suffix=suf, prefix=pre)]
    followed by [.name]: an empty file under a path no file had. *)
Definition NamedTemporaryFile (names : list string) (suf pre : string) : M string :=
  fun s => match free_name (fs s) (tempdir s) pre suf names with
           | Some file =>
               (Return file, add_log (Created file) (set_fs (insert file []) s))
           | None =>
               (Raise (OSError "[Errno 17] No usable temporary file name found"), s)
           end.

End Tempfile.

(** ** [app/main.py] *)

(** The framework's [UploadFile]: the declared file name and the spooled
    bytes still to be read from [upload.file]. *)
Record UploadFile := mkUpload {
  filename : option string;
  file : bytes
}.

(** Module-level configuration, as set when the module is imported. *)
Record config := mkConfig {
  ELEVENLABS_API_KEY : string;
  BACKEND_ACCESS_KEY : string
}.

Definition OUTPUT_FORMAT : string := "mp3_44100_128".

(** Lines 22-30: both keys are read from the environment when the module is
    imported, and the import fails without them. *)
Definition startup (env : gmap string string) : result config :=
  match env !! "ELEVENLABS_API_KEY" with
  | None => Raise (RuntimeError "ELEVENLABS_API_KEY is not set")
  | Some api_key =>
      match env !! "BACKEND_ACCESS_KEY" with
      | None => Raise (RuntimeError "BACKEND_ACCESS_KEY is not set")
      | Some access_key => Return (mkConfig api_key access_key)
      end
  end.

Definition inspect {A} (a : A) : {b : A | a = b} := exist _ a eq_refl.

(** [upload.file.read(n)] for [n >= 0]: the next [n] bytes at most, and what
    is left to read. *)
Fixpoint read (n : Z) (data : bytes) : bytes * bytes :=
  match data with
  | [] => ([], [])
  | b :: data' =>
      if n <=? 0 then ([], data)
      else let (chunk, rest) := read (n - 1) data' in (b :: chunk, rest)
  end.

(** [tmp.write(chunk)], the [k]-th of the copy. *)
Definition tmp_write (o : outside) (tmp : string) (chunk : bytes) (k : nat) : M unit :=
  match write_error o k with
  | Some e => raise e
  | None => Os.append tmp chunk
  end.

(** The [while True] loop of [_save_upload_tempfile]. *)
Equations? copy_upload (o : outside) (tmp : string) (data : bytes) (k : nat)
    (s : state) : result unit * state by wf (length data) lt :=
  copy_upload o tmp data k s with inspect (read (1024 * 1024) data) := {
    | exist _ ([], _) _ => (Return tt, s)
    | exist _ (b :: chunk, rest) Heq with tmp_write o tmp (b :: chunk) k s := {
        | (Raise e, s') => (Raise e, s')
        | (Return _, s') => copy_upload o tmp rest (S k) s' } }.
Proof.
  assert (∀ n d, length (read n d).1 + length (read n d).2 = length d)%nat as Hlen.
  { clear. intros n d. revert n. induction d as [|x d IH]; intros n; simpl; [done|].
    destruct (n <=? 0); simpl; [done|].
    specialize (IH (n - 1)). destruct (read (n - 1) d). simpl in *. lia. }
  specialize (Hlen (1024 * 1024) data). rewrite Heq in Hlen. simpl in Hlen. lia.
Qed.

Definition _save_upload_tempfile (o : outside) (upload : UploadFile) : M string :=
  let* suffix :=
    match filename upload with
    | None => raise (TypeError "expected str, bytes or os.PathLike object, not NoneType")
    | Some name =>
        let ext := snd (OsPath.splitext name) in
        ret (if PyStr.is_empty ext then ".wav" else ext)
    end in
  let* tmp := Tempfile.NamedTemporaryFile (ref_names o) suffix "ref_" in
  let* _ := try_finally (copy_upload o tmp (file upload) 0) (ret tt) in
  ret tmp.

Definition _remove_file (path : option string) : M unit :=
  try_except
    (match path with
     | None => ret tt
     | Some p =>
         if PyStr.is_empty p then ret tt
         else let* there := Os.path_exists p in
              if there then Os.remove p else ret tt
     end)
    (fun _ => ret tt).

Definition create_voice_from_reference (o : outside) (clone_name ref_path : string) : M voice :=
  let* audio_bytes := Os.read_file ref_path in
  let* _ := modify (add_log (IvcCreate clone_name [audio_bytes])) in
  let* voice := lift (ivc_create o clone_name [audio_bytes]) in
  ret voice.

(** The [for chunk in response: if chunk: f.write(chunk)] loop. *)
Fixpoint write_chunks (out_path : string) (chunks : list bytes) : M unit :=
  match chunks with
  | [] => ret tt
  | chunk :: chunks' =>
      let* _ := match chunk with
                | [] => ret tt
                | _ => Os.append out_path chunk
                end in
      write_chunks out_path chunks'
  end.

(** Line 93: [not os.path.exists(out_path) or os.path.getsize(out_path) < 100] *)
Definition output_too_small (out_path : string) : M bool :=
  let* there := Os.path_exists out_path in
  if negb there then ret true
  else let* size := Os.getsize out_path in
       ret (size <? 100).

Definition synthesize_text_to_file (o : outside) (voice_id text out_path : string) : M string :=
  let* _ := modify (add_log (TtsConvert text voice_id "eleven_multilingual_v2" OUTPUT_FORMAT)) in
  let* response := lift (tts_convert o text voice_id "eleven_multilingual_v2" OUTPUT_FORMAT) in
  let* _ := Os.open_wb out_path in
  let* _ := write_chunks out_path (fst response) in
  let* _ := match snd response with
            | Some e => raise e
            | None => ret tt
            end in
  let* bad := output_too_small out_path in
  if bad then raise (RuntimeError "Synthesized file is empty or too small")
  else ret out_path.

(** The dependency [_auth_header]; no route uses it. *)
Definition _auth_header (cfg : config) (x_api_key : string) : M string :=
  if bool_decide (x_api_key ≠ BACKEND_ACCESS_KEY cfg)
  then raise (HTTPException 401 "Unauthorized")
  else ret x_api_key.

(** The object the endpoint returns: [StreamingResponse(content,
    media_type=, headers=)]; [content] is what reading the opened output
    file yields, the status code is the default, 200. *)
Record StreamingResponse := mkStreaming {
  content : bytes;
  status_code : Z;
  media_type : string;
  init_headers : list (string * string)
}.

(** Line 127: [int(os.getenv("MAX_REF_BYTES", 10 * 1024 * 1024))] *)
Definition MAX_REF_BYTES : M Z :=
  let* s := get_state in
  match environ s !! "MAX_REF_BYTES" with
  | None => ret (10 * 1024 * 1024)
  | Some v =>
      match PyInt.of_string v with
      | Some n => ret n
      | None => raise (ValueError ("invalid literal for int() with base 10: '" +:+ v +:+ "'"))
      end
  end.

Definition content_disposition : string :=
  "attachment; filename=" +:+ PyStr.dquote +:+ "tts.mp3" +:+ PyStr.dquote.

Definition clone_name_of (ref_path : string) : string :=
  "ref_clone_" +:+ OsPath.basename ref_path.

Definition synthesize_endpoint (cfg : config) (o : outside)
    (ref_audio : UploadFile) (text x_api_key : string) : M StreamingResponse :=
  if bool_decide (x_api_key ≠ BACKEND_ACCESS_KEY cfg)
  then raise (HTTPException 401 "Unauthorized")
  else
    let* max_ref_bytes := MAX_REF_BYTES in
    let* ref_path :=
      try_except
        (let* ref_path := _save_upload_tempfile o ref_audio in
         let* size := Os.getsize ref_path in
         if max_ref_bytes <? size
         then let* _ := _remove_file (Some ref_path) in
              raise (HTTPException 400 "Reference file too large")
         else ret ref_path)
        (fun e => raise (HTTPException 500 ("Failed to save reference: " +:+ str e))) in
    let* out_path := Tempfile.NamedTemporaryFile (out_names o) ".mp3" "out_" in
    let* _ := modify (push_task (Some ref_path)) in
    let* _ := modify (push_task (Some out_path)) in
    try_except
      (let clone_name := clone_name_of ref_path in
       let* voice := create_voice_from_reference o clone_name ref_path in
       let* _ := synthesize_text_to_file o (voice_id voice) text out_path in
       let* file_like := Os.read_file out_path in
       let headers := [("Content-Disposition", content_disposition)] in
       ret (mkStreaming file_like 200 "audio/mpeg" headers))
      (fun e => raise (HTTPException 500 ("TTS error: " +:+ str e))).

(** The two guarded blocks of the endpoint, by name: lines 131-138 and
    lines 149-163. *)
Definition save_block (o : outside) (ref_audio : UploadFile) (max_ref_bytes : Z) : M string :=
  try_except
    (let* ref_path := _save_upload_tempfile o ref_audio in
     let* size := Os.getsize ref_path in
     if max_ref_bytes <? size
     then let* _ := _remove_file (Some ref_path) in
          raise (HTTPException 400 "Reference file too large")
     else ret ref_path)
    (fun e => raise (HTTPException 500 ("Failed to save reference: " +:+ str e))).

Definition tts_block (o : outside) (text ref_path out_path : string) : M StreamingResponse :=
  try_except
    (let clone_name := clone_name_of ref_path in
     let* voice := create_voice_from_reference o clone_name ref_path in
     let* _ := synthesize_text_to_file o (voice_id voice) text out_path in
     let* file_like := Os.read_file out_path in
     let headers := [("Content-Disposition", content_disposition)] in
     ret (mkStreaming file_like 200 "audio/mpeg" headers))
    (fun e => raise (HTTPException 500 ("TTS error: " +:+ str e))).

(** ** The framework around the endpoint *)

Module Framework.

Definition lower_char (c : ascii) : ascii :=
  let n := nat_of_ascii c in
  if ((65 <=? n) && (n <=? 90))%nat then ascii_of_nat (n + 32) else c.

Fixpoint lower (s : string) : string :=
  match s with
  | EmptyString => EmptyString
  | String c s' => String (lower_char c) (lower s')
  end.

(** What goes on the wire. *)
Inductive http_response :=
| Streamed (status : Z) (headers : list (string * string)) (body : bytes)
| JsonDetail (status : Z) (detail : string)
| ValidationError (missing : list string)
| InternalServerError.

Definition status_of (r : http_response) : Z :=
  match r with
  | Streamed status _ _ => status
  | JsonDetail status _ => status
  | ValidationError _ => 422
  | InternalServerError => 500
  end.

(** Header names are case-insensitive. *)
Fixpoint assoc (name : string) (l : list (string * string)) : option string :=
  match l with
  | [] => None
  | (k, v) :: l' => if String.eqb k name then Some v else assoc name l'
  end.


(** [Response.init_headers]: the names are lowercased, and the media type
    becomes the content type unless the headers carry one. *)
Definition raw_headers (r : StreamingResponse) : list (string * string) :=
  let raw := map (fun kv => (lower kv.1, kv.2)) (init_headers r) in
  match assoc "content-type" raw with
  | Some _ => raw
  | None =>
      let ct := media_type r in
      let ct := if String.prefix "text/" ct
                   && negb (bool_decide (is_Some (String.index 0 "charset=" (lower ct))))
                then ct +:+ "; charset=utf-8" else ct in
      raw ++ [("content-type", ct)]
  end.

Definition send (r : StreamingResponse) : http_response :=
  Streamed (status_code r) (raw_headers r) (content r).

(** The tasks queued on [background_tasks], run in order once the response
    is sent. *)
Fixpoint run_tasks (args : list (option string)) : M unit :=
  match args with
  | [] => ret tt
  | arg :: args' => let* _ := _remove_file arg in run_tasks args'
  end.

Definition clear_tasks (s : state) : state :=
  mkState (fs s) (environ s) (tempdir s) [] (log s).

(** One request: header and form fields as they arrive. *)
Record request := mkRequest {
  header_x_api_key : option string;
  form_ref_audio : option UploadFile;
  form_text : option string
}.

Definition missing_fields (req : request) : list string :=
  match header_x_api_key req with Some _ => [] | None => ["X-API-KEY"] end
  ++ match form_ref_audio req with Some _ => [] | None => ["ref_audio"] end
  ++ match form_text req with Some _ => [] | None => ["text"] end.

(** The response for what the endpoint returned or raised: the framework's
    handler turns an [HTTPException] into its status code with a JSON body
    carrying the detail; any other exception is an internal server error. *)
Definition respond (r : result StreamingResponse) : http_response :=
  match r with
  | Return r => send r
  | Raise (HTTPException status detail) => JsonDetail status detail
  | Raise _ => InternalServerError
  end.

(** The queued tasks travel with the response the endpoint returns; a
    response built from a raised exception has none. *)
Definition after_response (r : result StreamingResponse) (s : state) : state :=
  match r with
  | Return _ => clear_tasks (run_tasks (tasks s) s).2
  | Raise _ => clear_tasks s
  end.

(** [POST /synthesize].  The three parameters are declared with [...]:
    without one of them the framework answers 422 and the endpoint does
    not run. *)
Definition post_synthesize (cfg : config) (o : outside) (req : request)
    (s : state) : http_response * state :=
  match header_x_api_key req, form_ref_audio req, form_text req with
  | Some x_api_key, Some ref_audio, Some text =>
      let (r, s') := synthesize_endpoint cfg o ref_audio text x_api_key (clear_tasks s) in
      (respond r, after_response r s')
  | _, _, _ => (ValidationError (missing_fields req), s)
  end.

End Framework.

(** ** A small world to run requests in *)

Module Demo.
Import Framework.

Definition cfg : config := mkConfig "sk-provider" "s3cret".

Definition env : gmap string string :=
  {[ "ELEVENLABS_API_KEY" := "sk-provider"; "BACKEND_ACCESS_KEY" := "s3cret" ]}.

Definition s0 : state := mkState ∅ env "/tmp" [] [].

(** The ceiling lowered to five bytes. *)
Definition s5 : state :=
  mkState ∅ (<["MAX_REF_BYTES" := "5"]> env) "/tmp" [] [].

Definition b (n : nat) : bytes := repeat Byte.x2a n.

(** A provider that clones any sample and answers with 120 bytes of audio
    in two chunks and an empty one. *)
Definition provider_ok : outside :=
  mkOutside ["k3x9_a0b"] ["q7w2e_r5"] (fun _ => None)
    (fun _ _ => Return (mkVoice "voice-1"))
    (fun _ _ _ _ => Return ([b 100; []; b 20], None)).

(** The same provider for a client whose disk is full. *)
Definition disk_full : outside :=
  mkOutside ["k3x9_a0b"] ["q7w2e_r5"]
    (fun _ => Some (OSError "[Errno 28] No space left on device"))
    (ivc_create provider_ok) (tts_convert provider_ok).

(** A provider that turns the sample down. *)
Definition clone_refused : outside :=
  mkOutside ["k3x9_a0b"] ["q7w2e_r5"] (fun _ => None)
    (fun _ _ => Raise (ApiError "status_code: 400, body: voice sample too short"))
    (tts_convert provider_ok).

(** A provider whose audio stops after 99 bytes. *)
Definition short_audio : outside :=
  mkOutside ["k3x9_a0b"] ["q7w2e_r5"] (fun _ => None)
    (ivc_create provider_ok)
    (fun _ _ _ _ => Return ([b 90; b 9], None)).

(** A provider whose audio is exactly 100 bytes. *)
Definition exact_audio : outside :=
  mkOutside ["k3x9_a0b"] ["q7w2e_r5"] (fun _ => None)
    (ivc_create provider_ok)
    (fun _ _ _ _ => Return ([b 50; b 50], None)).

(** A second request, for which the generator first proposes the name it
    proposed before. *)
Definition provider_next : outside :=
  mkOutside ["k3x9_a0b"; "m4n8_c1d"] ["q7w2e_r5"; "z6y0_e2f"] (fun _ => None)
    (ivc_create provider_ok) (tts_convert provider_ok).

Definition wav (n : nat) : UploadFile := mkUpload (Some "sample.wav") (b n).

Definition req (key : option string) (n : nat) : request :=
  mkRequest key (Some (wav n)) (Some "hello world").

(** Where the two files of a request land with these names. *)
Definition ref_path : string := "/tmp/ref_k3x9_a0b.wav".
Definition out_path : string := "/tmp/out_q7w2e_r5.mp3".

(** The state once the reference of [n] bytes is saved, and once the
    output file is allocated as well. *)
Definition saved (o : outside) (n : nat) (s : state) : state :=
  (_save_upload_tempfile o (wav n) s).2.
Definition allocated (o : outside) (n : nat) (s : state) : state :=
  (Tempfile.NamedTemporaryFile (out_names o) ".mp3" "out_" (saved o n s)).2.

End Demo.

(** ** The vocabulary of the properties *)

(** [stable R m]: running [m] relates the state before to the state after. *)
Definition stable {A} (R : state → state → Prop) (m : M A) : Prop :=
  ∀ s, R s (m s).2.

(** A relation between states that no file operation and no log entry other
    than a clone call disturbs. *)
Class Frame (R : state → state → Prop) := {
  frame_refl :: Reflexive R;
  frame_trans :: Transitive R;
  frame_fs f s : R s (set_fs f s);
  frame_created p s : R s (add_log (Created p) s);
  frame_removed p s : R s (add_log (Removed p) s);
  frame_convert text voice_id model_id fmt s :
    R s (add_log (TtsConvert text voice_id model_id fmt) s)
}.

(** The parts of the state that belong to the process and to the request
    object, not to the file system or the log. *)
Definition same_process (s s' : state) : Prop :=
  environ s' = environ s ∧ tempdir s' = tempdir s ∧ tasks s' = tasks s.

(** The clone names the provider was given, latest first. *)
Fixpoint clone_names (l : list event) : list string :=
  match l with
  | [] => []
  | IvcCreate name _ :: l' => name :: clone_names l'
  | _ :: l' => clone_names l'
  end.

(** No clone call in between. *)
Definition no_clone (s s' : state) : Prop :=
  clone_names (log s') = clone_names (log s).



(** The ways a provider call can fail once the reference is accepted: the
    clone call raises, the conversion call raises, or the chunk iterator
    raises part-way. *)
Inductive provider_fails (o : outside) (text ref_path : string) (content : bytes) :
    exception → Prop :=
| clone_raises e :
    ivc_create o (clone_name_of ref_path) [content] = Raise e →
    provider_fails o text ref_path content e
| convert_raises v e :
    ivc_create o (clone_name_of ref_path) [content] = Return v →
    tts_convert o text (voice_id v) "eleven_multilingual_v2" OUTPUT_FORMAT = Raise e →
    provider_fails o text ref_path content e
| iteration_raises v chunks e :
    ivc_create o (clone_name_of ref_path) [content] = Return v →
    tts_convert o text (voice_id v) "eleven_multilingual_v2" OUTPUT_FORMAT
      = Return (chunks, Some e) →
    provider_fails o text ref_path content e.

(** The names the temporary-name generator proposes are made of lowercase
    letters, digits and underscores. *)
Definition name_char (c : ascii) : bool :=
  PyStr.mem c "abcdefghijklmnopqrstuvwxyz0123456789_".

Fixpoint generated_name (s : string) : bool :=
  match s with
  | EmptyString => true
  | String c s' => name_char c && generated_name s'
  end.

(** The request is authorized material: its reference is saved at [p], is
    not larger than the ceiling, and its output file is allocated. *)
Definition accepted (o : outside) (ref_audio : UploadFile) (s : state) (p : string) : Prop :=
  ∃ max s1 content out_path s2,
    MAX_REF_BYTES s = (Return max, s)
    ∧ _save_upload_tempfile o ref_audio s = (Return p, s1)
    ∧ fs s1 !! p = Some content
    ∧ len content <= max
    ∧ Tempfile.NamedTemporaryFile (out_names o) ".mp3" "out_" s1 = (Return out_path, s2).

(** ** The model at work *)

Example splitext_wav : OsPath.splitext "voice.sample.wav" = ("voice.sample", ".wav").
Proof. reflexivity. Qed.

Example splitext_hidden : OsPath.splitext "dir.d/.bashrc" = ("dir.d/.bashrc", EmptyString).
Proof. reflexivity. Qed.

Example splitext_none : OsPath.splitext "a.b/c" = ("a.b/c", EmptyString).
Proof. reflexivity. Qed.

Example basename_tmp : OsPath.basename "/tmp/ref_abc.wav" = "ref_abc.wav".
Proof. reflexivity. Qed.

Example join_tmp : OsPath.join "/tmp" "ref_abc.wav" = "/tmp/ref_abc.wav".
Proof. reflexivity. Qed.

Example int_plain : PyInt.of_string "10485760" = Some 10485760.
Proof. reflexivity. Qed.

Example int_spaces_sign : PyInt.of_string "  -1_000 " = Some (-1000).
Proof. reflexivity. Qed.

Example int_bad : PyInt.of_string "10MB" = None.
Proof. reflexivity. Qed.

Example int_bad_underscore : PyInt.of_string "1__0" = None.
Proof. reflexivity. Qed.

Example str_400 : PyInt.to_string 400 = "400".
Proof. reflexivity. Qed.

Example demo_startup : startup Demo.env = Return Demo.cfg.
Proof. vm_compute. reflexivity. Qed.

Example demo_success :
  (Framework.post_synthesize Demo.cfg Demo.provider_ok (Demo.req (Some "s3cret") 4) Demo.s0).1
  = Framework.Streamed 200
      [("content-disposition", content_disposition); ("content-type", "audio/mpeg")]
      (Demo.b 120).
Proof. vm_compute. reflexivity. Qed.
(** * Properties *)

(** ** Strings and paths *)

Section strings.

Lemma append_nil s : EmptyString +:+ s = s.
Proof. reflexivity. Qed.

Lemma append_cons a s t : String a s +:+ t = String a (s +:+ t).
Proof. reflexivity. Qed.

Lemma append_assoc s1 s2 s3 : (s1 +:+ s2) +:+ s3 = s1 +:+ s2 +:+ s3.
Proof.
  induction s1 as [|a s1 IH]; [done|].
  by rewrite !append_cons, IH.
Qed.

Lemma append_inj_l s t1 t2 : s +:+ t1 = s +:+ t2 → t1 = t2.
Proof.
  induction s as [|a s IH]; [done|].
  rewrite !append_cons. intros [= H]. auto.
Qed.

Lemma mem_append c s1 s2 :
  PyStr.mem c (s1 +:+ s2) = PyStr.mem c s1 || PyStr.mem c s2.
Proof.
  induction s1 as [|a s1 IH]; [done|].
  rewrite append_cons. simpl. destruct (Ascii.eqb a c); [done|]. apply IH.
Qed.

Lemma mem_drop c n s : PyStr.mem c s = false → PyStr.mem c (PyStr.drop n s) = false.
Proof.
  revert s. induction n as [|n IH]; intros [|a s]; simpl; try done.
  destruct (Ascii.eqb a c); [done|]. apply IH.
Qed.

Lemma rindex_None c s : PyStr.rindex c s = None → PyStr.mem c s = false.
Proof.
  induction s as [|a s IH]; simpl; [done|].
  destruct (PyStr.rindex c s); [done|].
  destruct (Ascii.eqb a c); [done|]. auto.
Qed.

Lemma rindex_mem_false c s : PyStr.mem c s = false → PyStr.rindex c s = None.
Proof.
  induction s as [|a s IH]; simpl; [done|].
  destruct (Ascii.eqb a c); [done|]. intros H. by rewrite IH.
Qed.

(** Nothing after the last occurrence. *)
Lemma rindex_Some_drop c s i n :
  PyStr.rindex c s = Some i → (i < n)%nat → PyStr.mem c (PyStr.drop n s) = false.
Proof.
  revert i n. induction s as [|a s IH]; intros i n; simpl; [done|].
  destruct (PyStr.rindex c s) as [j|] eqn:Hj.
  - intros [= <-] Hn. destruct n as [|n]; [lia|]. simpl.
    apply (IH j); [done | lia].
  - destruct (Ascii.eqb a c); [|done]. intros [= <-] Hn.
    destruct n as [|n]; [lia|]. simpl.
    by apply mem_drop, rindex_None.
Qed.

Lemma rindex_append_r c s1 s2 :
  PyStr.mem c s2 = false → PyStr.rindex c (s1 +:+ s2) = PyStr.rindex c s1.
Proof.
  intros H. induction s1 as [|a s1 IH].
  - by apply rindex_mem_false.
  - rewrite append_cons. simpl. by rewrite IH.
Qed.

Lemma drop_length_append s1 s2 : PyStr.drop (String.length s1) (s1 +:+ s2) = s2.
Proof.
  induction s1 as [|a s1 IH]; [by destruct s2|].
  rewrite append_cons. simpl. done.
Qed.

(** A string that ends with [c] has its last [c] at the last position. *)
Lemma rindex_endswith c s :
  PyStr.endswith c s = true → PyStr.rindex c s = Some (String.length s - 1)%nat.
Proof.
  induction s as [|a s IH]; [done|].
  destruct s as [|a' s'].
  - simpl. by intros ->.
  - intros H. change (PyStr.endswith c (String a' s') = true) in H.
    specialize (IH H). remember (String a' s') as t.
    simpl. rewrite IH. f_equal. subst t. simpl. lia.
Qed.

Lemma endswith_append_char c s :
  PyStr.endswith c (s +:+ String c EmptyString) = true.
Proof.
  induction s as [|a s IH]; [simpl; apply Ascii.eqb_refl|].
  rewrite append_cons.
  destruct (s +:+ String c EmptyString) eqn:E; [by destruct s|].
  exact IH.
Qed.

Lemma length_append s1 s2 :
  String.length (s1 +:+ s2) = (String.length s1 + String.length s2)%nat.
Proof.
  induction s1 as [|a s1 IH]; [done|].
  rewrite append_cons. simpl. by rewrite IH.
Qed.

End strings.

Section paths.

Local Abbreviation no_slash s := (PyStr.mem "/"%char s = false).

(** The base name of a path made by [join] is what was joined, when that
    has no slash in it. *)
Lemma basename_join dir base :
  no_slash base → OsPath.basename (OsPath.join dir base) = base.
Proof.
  intros Hbase. unfold OsPath.join.
  assert (PyStr.startswith "/"%char base = false) as ->.
  { destruct base as [|a base]; [done|]. simpl in *.
    by destruct (Ascii.eqb a "/"%char). }
  unfold OsPath.basename, PyStr.rfind.
  destruct (PyStr.is_empty dir || PyStr.endswith "/"%char dir) eqn:Hdir.
  - rewrite rindex_append_r by done.
    destruct dir as [|a dir]; [simpl; by destruct base|].
    simpl in Hdir. change (PyStr.endswith "/"%char (String a dir) = true) in Hdir.
    rewrite (rindex_endswith _ _ Hdir).
    replace (Z.to_nat (Z.of_nat (String.length (String a dir) - 1) + 1))
      with (String.length (String a dir)) by (simpl; lia).
    apply drop_length_append.
  - rewrite <-append_assoc, rindex_append_r by done.
    rewrite (rindex_endswith _ (dir +:+ "/")) by apply endswith_append_char.
    replace (Z.to_nat (Z.of_nat (String.length (dir +:+ "/") - 1) + 1))
      with (String.length (dir +:+ "/")).
    + apply drop_length_append.
    + rewrite length_append. simpl. lia.
Qed.

Lemma join_nonempty dir base :
  PyStr.is_empty base = false → PyStr.is_empty (OsPath.join dir base) = false.
Proof.
  intros Hbase. unfold OsPath.join.
  destruct (PyStr.startswith "/"%char base); [done|].
  destruct (PyStr.is_empty dir || PyStr.endswith "/"%char dir);
    by destruct dir.
Qed.

(** The extension [splitext] returns has no slash. *)
Lemma splitext_ext_no_slash p : no_slash (OsPath.splitext p).2.
Proof.
  unfold OsPath.splitext.
  destruct (_ && _) eqn:Hc; [|done]. simpl.
  apply andb_prop in Hc as [Hlt _]. apply Z.ltb_lt in Hlt.
  unfold PyStr.rfind in *.
  destruct (PyStr.rindex "." p) as [d|] eqn:Hd;
    destruct (PyStr.rindex "/" p) as [i|] eqn:Hi; try lia.
  - apply (rindex_Some_drop _ _ i); [done | lia].
  - by apply mem_drop, rindex_None.
Qed.

End paths.

(** ** Reading in pieces *)

Lemma read_length n data :
  (length (read n data).1 + length (read n data).2 = length data)%nat.
Proof.
  revert n. induction data as [|b data IH]; intros n; simpl; [done|].
  destruct (n <=? 0); simpl; [done|].
  specialize (IH (n - 1)). destruct (read (n - 1) data). simpl in *. lia.
Qed.

Lemma read_shrinks n data b chunk rest :
  read n data = (b :: chunk, rest) → (length rest < length data)%nat.
Proof.
  intros Heq. pose proof (read_length n data) as Hlen.
  rewrite Heq in Hlen. simpl in Hlen. lia.
Qed.

(** ** Running computations *)

Section run.

Context {A B : Type}.

Lemma bind_Return (m : M A) (k : A → M B) s a s' :
  m s = (Return a, s') → bind m k s = k a s'.
Proof. unfold bind. by intros ->. Qed.

Lemma bind_Raise (m : M A) (k : A → M B) s e s' :
  m s = (Raise e, s') → bind m k s = (Raise e, s').
Proof. unfold bind. by intros ->. Qed.

Lemma try_except_Return (m : M A) h s a s' :
  m s = (Return a, s') → try_except m h s = (Return a, s').
Proof. unfold try_except. by intros ->. Qed.

Lemma try_except_Raise (m : M A) h s e s' :
  m s = (Raise e, s') → try_except m h s = h e s'.
Proof. unfold try_except. by intros ->. Qed.

End run.

Ltac run :=
  unfold bind, ret, raise, lift, modify, get_state, try_except, try_finally in *;
  simpl in *.

(** ** What a computation leaves alone *)

Section stable.

Context (R : state → state → Prop) `{!Reflexive R} `{!Transitive R}.

Lemma stable_ret {A} (a : A) : stable R (ret a).
Proof. intros s. simpl. reflexivity. Qed.

Lemma stable_raise {A} e : stable R (@raise A e).
Proof. intros s. simpl. reflexivity. Qed.

Lemma stable_lift {A} (r : result A) : stable R (lift r).
Proof. intros s. simpl. reflexivity. Qed.

Lemma stable_bind {A B} (m : M A) (k : A → M B) :
  stable R m → (∀ a, stable R (k a)) → stable R (bind m k).
Proof.
  intros Hm Hk s. unfold bind. specialize (Hm s).
  destruct (m s) as [[a|e] s1]; simpl in *; [|done].
  etrans; [exact Hm | apply Hk].
Qed.

Lemma stable_try_except {A} (m : M A) h :
  stable R m → (∀ e, stable R (h e)) → stable R (try_except m h).
Proof.
  intros Hm Hh s. unfold try_except. specialize (Hm s).
  destruct (m s) as [[a|e] s1]; simpl in *; [done|].
  etrans; [exact Hm | apply Hh].
Qed.

Lemma stable_try_finally {A} (m : M A) f :
  stable R m → stable R f → stable R (try_finally m f).
Proof.
  intros Hm Hf s. unfold try_finally. specialize (Hm s).
  destruct (m s) as [r s1]. specialize (Hf s1).
  destruct (f s1) as [[[]|e] s2]; simpl in *; by etrans.
Qed.

Lemma stable_modify f : (∀ s, R s (f s)) → stable R (modify f).
Proof. intros H s. apply H. Qed.

Lemma stable_if {A} (b : bool) (m1 m2 : M A) :
  stable R m1 → stable R m2 → stable R (if b then m1 else m2).
Proof. by destruct b. Qed.

End stable.

Global Instance same_process_frame : Frame same_process.
Proof.
  split; try done.
  intros s1 s2 s3 (?&?&?) (?&?&?). repeat split; congruence.
Qed.

Global Instance no_clone_frame : Frame no_clone.
Proof.
  split; try done.
  intros s1 s2 s3 H1 H2. unfold no_clone in *. congruence.
Qed.

Section files_stable.

Context (R : state → state → Prop) `{!Frame R}.

Lemma path_exists_stable p : stable R (Os.path_exists p).
Proof. intros s. simpl. reflexivity. Qed.

Lemma getsize_stable p : stable R (Os.getsize p).
Proof. intros s. unfold Os.getsize. by destruct (fs s !! p). Qed.


Lemma read_file_stable p : stable R (Os.read_file p).
Proof. intros s. unfold Os.read_file. by destruct (fs s !! p). Qed.

Lemma open_wb_stable p : stable R (Os.open_wb p).
Proof. intros s. apply frame_fs. Qed.

Lemma append_stable p chunk : stable R (Os.append p chunk).
Proof. intros s. apply frame_fs. Qed.

Lemma NamedTemporaryFile_stable names suf pre :
  stable R (Tempfile.NamedTemporaryFile names suf pre).
Proof.
  intros s. unfold Tempfile.NamedTemporaryFile.
  destruct (Tempfile.free_name _ _ _ _ _); simpl; [|done].
  etrans; [apply frame_fs | apply frame_created].
Qed.

Lemma tmp_write_stable o tmp chunk k : stable R (tmp_write o tmp chunk k).
Proof.
  unfold tmp_write. destruct (write_error o k).
  - apply stable_raise, _.
  - apply append_stable.
Qed.

(** One turn of the copy loop. *)
Lemma copy_upload_step o tmp data k s :
  copy_upload o tmp data k s =
  match read (1024 * 1024) data with
  | ([], _) => (Return tt, s)
  | (chunk, rest) =>
      match tmp_write o tmp chunk k s with
      | (Return _, s') => copy_upload o tmp rest (S k) s'
      | (Raise e, s') => (Raise e, s')
      end
  end.
Proof.
  funelim (copy_upload o tmp data k s).
  - by rewrite e.
  - by rewrite Heq, Heq0.
  - by rewrite Heq, Heq0.
Qed.

Lemma copy_upload_stable o tmp data k : stable R (copy_upload o tmp data k).
Proof.
  remember (length data) as n eqn:Hn. revert data k Hn.
  induction n as [n IH] using lt_wf_ind. intros data k -> s.
  rewrite copy_upload_step.
  destruct (read (1024 * 1024) data) as [[|b chunk] rest] eqn:Hread; [done|].
  pose proof (tmp_write_stable o tmp (b :: chunk) k s) as Hw.
  destruct (tmp_write o tmp (b :: chunk) k s) as [[[]|e] s']; simpl in *; [|done].
  etrans; [exact Hw|].
  eapply IH; [|done]. eapply read_shrinks, Hread.
Qed.

Lemma _save_upload_tempfile_stable o upload :
  stable R (_save_upload_tempfile o upload).
Proof.
  unfold _save_upload_tempfile.
  apply stable_bind; [apply _| |].
  { destruct (filename upload); [apply stable_ret | apply stable_raise]; apply _. }
  intros suffix. apply stable_bind; [apply _|apply NamedTemporaryFile_stable|].
  intros tmp. apply stable_bind; [apply _| |intros; apply stable_ret, _].
  apply stable_try_finally; [apply _|apply copy_upload_stable|apply stable_ret, _].
Qed.



Lemma write_chunks_stable out_path chunks : stable R (write_chunks out_path chunks).
Proof.
  induction chunks as [|chunk chunks IH]; simpl; [apply stable_ret, _|].
  apply stable_bind; [apply _| |done].
  destruct chunk; [apply stable_ret, _ | apply append_stable].
Qed.

Lemma output_too_small_stable out_path : stable R (output_too_small out_path).
Proof.
  unfold output_too_small.
  apply stable_bind; [apply _|apply path_exists_stable|]. intros there.
  destruct (negb there); [apply stable_ret, _|].
  apply stable_bind; [apply _|apply getsize_stable|]. intros; apply stable_ret, _.
Qed.

Lemma synthesize_text_to_file_stable o voice_id text out_path :
  stable R (synthesize_text_to_file o voice_id text out_path).
Proof.
  unfold synthesize_text_to_file.
  apply stable_bind; [apply _|apply stable_modify; intros; apply frame_convert|].
  intros _.
  apply stable_bind; [apply _|apply stable_lift, _|]. intros response.
  apply stable_bind; [apply _|apply open_wb_stable|]. intros _.
  apply stable_bind; [apply _|apply write_chunks_stable|]. intros _.
  apply stable_bind; [apply _| |].
  { destruct (snd response); [apply stable_raise | apply stable_ret]; apply _. }
  intros _. apply stable_bind; [apply _|apply output_too_small_stable|].
  intros []; [apply stable_raise | apply stable_ret]; apply _.
Qed.

(** What follows the clone call in lines 149-163. *)
Lemma after_clone_stable o text out_path (v : voice) :
  stable R (let* _ := synthesize_text_to_file o (voice_id v) text out_path in
            let* file_like := Os.read_file out_path in
            ret (mkStreaming file_like 200 "audio/mpeg"
                   [("Content-Disposition", content_disposition)])).
Proof.
  apply stable_bind; [apply _|apply synthesize_text_to_file_stable|]. intros _.
  apply stable_bind; [apply _|apply read_file_stable|]. intros c.
  apply stable_ret, _.
Qed.

End files_stable.

Lemma create_voice_stable o clone_name ref_path :
  stable same_process (create_voice_from_reference o clone_name ref_path).
Proof.
  unfold create_voice_from_reference.
  apply stable_bind; [apply _|apply read_file_stable, _|]. intros audio.
  apply stable_bind; [apply _|by apply stable_modify|]. intros _.
  apply stable_bind; [apply _|apply stable_lift, _|]. intros v.
  apply stable_ret, _.
Qed.

(** ** The helpers, step by step *)

Section helpers.

Lemma free_name_Some m dir pre suf names p :
  Tempfile.free_name m dir pre suf names = Some p →
  m !! p = None ∧ ∃ name, name ∈ names ∧ p = OsPath.join dir (pre +:+ name +:+ suf).
Proof.
  induction names as [|name names IH]; simpl; [done|].
  destruct (m !! OsPath.join dir (pre +:+ name +:+ suf)) eqn:Hm.
  - intros H. destruct (IH H) as (? & name' & ? & ?).
    split; [done|]. exists name'. split; [by right | done].
  - intros [= <-]. split; [done|]. exists name. split; [by left | done].
Qed.

Lemma NamedTemporaryFile_Return names suf pre s p s' :
  Tempfile.NamedTemporaryFile names suf pre s = (Return p, s') →
  Tempfile.free_name (fs s) (tempdir s) pre suf names = Some p
  ∧ s' = add_log (Created p) (set_fs (insert p []) s).
Proof.
  unfold Tempfile.NamedTemporaryFile.
  destruct (Tempfile.free_name _ _ _ _ _); [|done]. by intros [= -> <-].
Qed.

Lemma NamedTemporaryFile_Raise names suf pre s e s' :
  Tempfile.NamedTemporaryFile names suf pre s = (Raise e, s') →
  s' = s ∧ ∃ msg, e = OSError msg.
Proof.
  unfold Tempfile.NamedTemporaryFile.
  destruct (Tempfile.free_name _ _ _ _ _); [done|]. intros [= <- <-]. eauto.
Qed.

(** A created temporary file has a path that is not empty. *)
Lemma free_name_nonempty m dir suf names p :
  Tempfile.free_name m dir "ref_" suf names = Some p → PyStr.is_empty p = false.
Proof.
  intros (_ & name & _ & ->)%free_name_Some. by apply join_nonempty.
Qed.


Lemma _remove_file_existing p content s :
  PyStr.is_empty p = false → fs s !! p = Some content →
  _remove_file (Some p) s = (Return tt, add_log (Removed p) (set_fs (delete p) s)).
Proof.
  intros Hp Hfs. unfold _remove_file. run. rewrite Hp. simpl.
  rewrite bool_decide_eq_true_2 by (by rewrite Hfs).
  unfold Os.remove. by rewrite Hfs.
Qed.

(** A file that is not there stays away, and nothing is logged. *)
Lemma _remove_file_missing p s :
  fs s !! p = None → _remove_file (Some p) s = (Return tt, s).
Proof.
  intros Hfs. unfold _remove_file. run.
  destruct (PyStr.is_empty p); [done|]. simpl.
  rewrite bool_decide_eq_false_2; [done|]. rewrite Hfs. by intros [? ?].
Qed.

(** Where the reference file of a request comes from. *)
Lemma _save_upload_tempfile_Return o upload s p s1 :
  _save_upload_tempfile o upload s = (Return p, s1) →
  ∃ name suffix,
    filename upload = Some name
    ∧ suffix = (if PyStr.is_empty (OsPath.splitext name).2 then ".wav"
                else (OsPath.splitext name).2)
    ∧ Tempfile.free_name (fs s) (tempdir s) "ref_" suffix (ref_names o) = Some p.
Proof.
  unfold _save_upload_tempfile. intros H.
  destruct (filename upload) as [name|]; [|by run].
  exists name, (if PyStr.is_empty (OsPath.splitext name).2 then ".wav"
                else (OsPath.splitext name).2).
  split; [done|]. split; [done|].
  unfold bind at 1 in H. unfold ret at 1 in H.
  unfold bind at 1 in H.
  destruct (Tempfile.NamedTemporaryFile _ _ _ s) as [[tmp|e] s0] eqn:Htmp; [|done].
  apply NamedTemporaryFile_Return in Htmp as [Hfree ->].
  unfold bind at 1 in H.
  destruct (try_finally _ _ _) as [[[]|e] s2]; [|done].
  unfold ret in H. by injection H as -> ->.
Qed.




End helpers.

(** ** A copy that succeeds *)

Lemma read_app n data : (read n data).1 ++ (read n data).2 = data.
Proof.
  revert n. induction data as [|b data IH]; intros n; simpl; [done|].
  destruct (n <=? 0); simpl; [done|].
  specialize (IH (n - 1)). destruct (read (n - 1) data). simpl in *. by rewrite IH.
Qed.

(** Without a failing write the loop ends, with all the bytes appended. *)
Lemma copy_upload_copies o tmp data k s c :
  (∀ i, write_error o i = None) →
  fs s !! tmp = Some c →
  ∃ s', copy_upload o tmp data k s = (Return tt, s')
        ∧ fs s' = <[tmp := c ++ data]> (fs s)
        ∧ log s' = log s.
Proof.
  intros Hw. remember (length data) as n eqn:Hn. revert data k s c Hn.
  induction n as [n IH] using lt_wf_ind. intros data k s c -> Hfs.
  rewrite copy_upload_step.
  pose proof (read_app (1024 * 1024) data) as Happ.
  destruct (read (1024 * 1024) data) as [[|b chunk] rest] eqn:Hread; simpl in Happ.
  - exists s. split; [done|]. split; [|done].
    subst rest. pose proof (read_length (1024 * 1024) data) as Hlen.
    rewrite Hread in Hlen. simpl in Hlen.
    destruct data as [|x data]; [|simpl in Hread; by destruct (read _ data)].
    by rewrite app_nil_r, insert_id.
  - unfold tmp_write. rewrite Hw. unfold Os.append, modify.
    set (s1 := set_fs _ s).
    destruct (IH (length rest) (read_shrinks _ _ _ _ _ Hread) rest (S k) s1
                (c ++ b :: chunk) eq_refl) as (s' & Hrun & Hfs' & Hlog).
    { subst s1. simpl. by rewrite Hfs, lookup_insert_eq. }
    exists s'. split; [done|]. split; [|done].
    rewrite Hfs'. subst s1. simpl.
    by rewrite insert_insert_eq, <-app_assoc, <-Happ.
Qed.

(** The upload is saved whole under the first free name. *)
Lemma _save_upload_tempfile_copies o upload s name p :
  filename upload = Some name →
  (∀ i, write_error o i = None) →
  Tempfile.free_name (fs s) (tempdir s) "ref_"
    (if PyStr.is_empty (OsPath.splitext name).2 then ".wav" else (OsPath.splitext name).2)
    (ref_names o) = Some p →
  ∃ s1, _save_upload_tempfile o upload s = (Return p, s1)
        ∧ fs s1 = <[p := file upload]> (fs s)
        ∧ log s1 = Created p :: log s.
Proof.
  intros Hname Hw Hfree. unfold _save_upload_tempfile. rewrite Hname.
  unfold bind at 1. unfold ret at 1.
  unfold bind at 1. unfold Tempfile.NamedTemporaryFile. rewrite Hfree.
  set (s0 := add_log _ _).
  destruct (copy_upload_copies o p (file upload) 0 s0 [] Hw) as (s1 & Hrun & Hfs & Hlog).
  { subst s0. simpl. by rewrite lookup_insert_eq. }
  exists s1. unfold bind, try_finally, ret. rewrite Hrun.
  split; [done|]. split; [|done].
  rewrite Hfs. subst s0. simpl. by rewrite insert_insert_eq.
Qed.

(** ** The endpoint, block by block *)

Section endpoint.

Variables (cfg : config) (o : outside).

(** The endpoint is its two guarded blocks around the allocation of the
    output file and the queueing of the clean-up. *)
Lemma synthesize_endpoint_blocks ref_audio text x_api_key :
  synthesize_endpoint cfg o ref_audio text x_api_key =
  if bool_decide (x_api_key ≠ BACKEND_ACCESS_KEY cfg)
  then raise (HTTPException 401 "Unauthorized")
  else
    let* max_ref_bytes := MAX_REF_BYTES in
    let* ref_path := save_block o ref_audio max_ref_bytes in
    let* out_path := Tempfile.NamedTemporaryFile (out_names o) ".mp3" "out_" in
    let* _ := modify (push_task (Some ref_path)) in
    let* _ := modify (push_task (Some out_path)) in
    tts_block o text ref_path out_path.
Proof. reflexivity. Qed.

Lemma endpoint_unauthorized ref_audio text x_api_key s :
  x_api_key ≠ BACKEND_ACCESS_KEY cfg →
  synthesize_endpoint cfg o ref_audio text x_api_key s
  = (Raise (HTTPException 401 "Unauthorized"), s).
Proof.
  intros Hkey. rewrite synthesize_endpoint_blocks.
  by rewrite bool_decide_eq_true_2.
Qed.

(** *** Lines 131-138 *)

Lemma save_block_accepts ref_audio max s p s1 content :
  _save_upload_tempfile o ref_audio s = (Return p, s1) →
  fs s1 !! p = Some content →
  len content <= max →
  save_block o ref_audio max s = (Return p, s1).
Proof.
  intros Hsave Hfs Hsize. unfold save_block.
  apply try_except_Return.
  rewrite (bind_Return _ _ _ _ _ Hsave).
  unfold bind, Os.getsize. rewrite Hfs.
  by rewrite (proj2 (Z.ltb_ge _ _)).
Qed.

Lemma save_block_rejects ref_audio max s p s1 content :
  _save_upload_tempfile o ref_audio s = (Return p, s1) →
  fs s1 !! p = Some content →
  max < len content →
  save_block o ref_audio max s
  = (Raise (HTTPException 500 "Failed to save reference: 400: Reference file too large"),
     add_log (Removed p) (set_fs (delete p) s1)).
Proof.
  intros Hsave Hfs Hsize. unfold save_block.
  match goal with
  | |- try_except ?m _ _ = _ =>
      assert (m s = (Raise (HTTPException 400 "Reference file too large"),
                     add_log (Removed p) (set_fs (delete p) s1))) as Hin
  end.
  { rewrite (bind_Return _ _ _ _ _ Hsave).
    unfold bind at 1. unfold Os.getsize. rewrite Hfs.
    rewrite (proj2 (Z.ltb_lt _ _)) by done.
    apply _save_upload_tempfile_Return in Hsave as (name & suffix & _ & _ & Hfree).
    apply free_name_nonempty in Hfree.
    unfold bind. by rewrite (_remove_file_existing _ _ _ Hfree Hfs). }
  by rewrite (try_except_Raise _ _ _ _ _ Hin).
Qed.

Lemma save_block_fails ref_audio max s e s1 :
  _save_upload_tempfile o ref_audio s = (Raise e, s1) →
  save_block o ref_audio max s
  = (Raise (HTTPException 500 ("Failed to save reference: " +:+ str e)), s1).
Proof.
  intros Hsave. unfold save_block.
  match goal with
  | |- try_except ?m _ _ = _ => assert (m s = (Raise e, s1)) as Hin
  end.
  { by rewrite (bind_Raise _ _ _ _ _ Hsave). }
  by rewrite (try_except_Raise _ _ _ _ _ Hin).
Qed.

(** From an accepted reference to the provider. *)
Lemma endpoint_accepted ref_audio text s max p s1 content out_path s2 :
  MAX_REF_BYTES s = (Return max, s) →
  _save_upload_tempfile o ref_audio s = (Return p, s1) →
  fs s1 !! p = Some content →
  len content <= max →
  Tempfile.NamedTemporaryFile (out_names o) ".mp3" "out_" s1 = (Return out_path, s2) →
  synthesize_endpoint cfg o ref_audio text (BACKEND_ACCESS_KEY cfg) s
  = tts_block o text p out_path (push_task (Some out_path) (push_task (Some p) s2)).
Proof.
  intros Hmax Hsave Hfs Hsize Hout.
  rewrite synthesize_endpoint_blocks.
  rewrite bool_decide_eq_false_2 by (by intros []).
  rewrite (bind_Return _ _ _ _ _ Hmax).
  rewrite (bind_Return _ _ _ _ _ (save_block_accepts _ _ _ _ _ _ Hsave Hfs Hsize)).
  rewrite (bind_Return _ _ _ _ _ Hout).
  reflexivity.
Qed.

(** The reference is still there, unchanged, when the provider is called. *)
Lemma reference_kept names suf pre s1 p content out_path s2 :
  fs s1 !! p = Some content →
  Tempfile.NamedTemporaryFile names suf pre s1 = (Return out_path, s2) →
  p ≠ out_path
  ∧ fs (push_task (Some out_path) (push_task (Some p) s2)) = <[out_path := []]> (fs s1).
Proof.
  intros Hfs [Hfree ->]%NamedTemporaryFile_Return.
  apply free_name_Some in Hfree as [Hnone _].
  split; [congruence | done].
Qed.

End endpoint.

(** ** The provider calls *)

Section provider.

Variable o : outside.

Lemma create_voice_run clone_name ref_path content s :
  fs s !! ref_path = Some content →
  create_voice_from_reference o clone_name ref_path s
  = (ivc_create o clone_name [content], add_log (IvcCreate clone_name [content]) s).
Proof.
  intros Hfs. unfold create_voice_from_reference.
  unfold bind at 1. unfold Os.read_file. rewrite Hfs.
  unfold bind, modify, lift, ret.
  by destruct (ivc_create o clone_name [content]).
Qed.

(** The chunks end up in the output file one after the other. *)
Lemma write_chunks_run out_path chunks s c :
  fs s !! out_path = Some c →
  ∃ s', write_chunks out_path chunks s = (Return tt, s')
        ∧ fs s' = <[out_path := c ++ concat chunks]> (fs s)
        ∧ log s' = log s.
Proof.
  revert s c. induction chunks as [|chunk chunks IH]; intros s c Hfs; simpl.
  - exists s. split; [done|]. split; [|done].
    by rewrite app_nil_r, insert_id.
  - destruct chunk as [|b chunk].
    + unfold bind at 1. unfold ret at 1. simpl. by apply IH.
    + unfold bind at 1. unfold Os.append, modify.
      set (s1 := set_fs _ s).
      destruct (IH s1 (c ++ b :: chunk)) as (s' & Hrun & Hfs' & Hlog).
      { subst s1. simpl. by rewrite Hfs, lookup_insert_eq. }
      exists s'. split; [done|]. split; [|done].
      rewrite Hfs'. subst s1. simpl.
      by rewrite insert_insert_eq, <-app_assoc.
Qed.

Lemma output_too_small_run out_path s :
  output_too_small out_path s
  = (Return (match fs s !! out_path with
             | Some content => len content <? 100
             | None => true
             end), s).
Proof.
  unfold output_too_small, bind, Os.path_exists, Os.getsize, ret.
  destruct (fs s !! out_path) as [content|] eqn:Hfs.
  - rewrite bool_decide_eq_true_2 by eauto. simpl. by rewrite Hfs.
  - rewrite bool_decide_eq_false_2; [done|]. by intros [? ?].
Qed.

Abbreviation convert text voice_id :=
  (tts_convert o text voice_id "eleven_multilingual_v2" OUTPUT_FORMAT).

Lemma synthesize_refused voice_id text out_path s e :
  convert text voice_id = Raise e →
  ∃ s', synthesize_text_to_file o voice_id text out_path s = (Raise e, s')
        ∧ fs s' = fs s.
Proof.
  intros Hc. unfold synthesize_text_to_file, bind, modify, lift. rewrite Hc.
  eexists. split; [done|done].
Qed.

Lemma synthesize_interrupted voice_id text out_path s chunks e :
  convert text voice_id = Return (chunks, Some e) →
  ∃ s', synthesize_text_to_file o voice_id text out_path s = (Raise e, s')
        ∧ fs s' = <[out_path := concat chunks]> (fs s).
Proof.
  intros Hc. unfold synthesize_text_to_file.
  unfold bind at 1. unfold modify at 1.
  unfold bind at 1. unfold lift. rewrite Hc.
  unfold bind at 1. unfold Os.open_wb, modify.
  set (s1 := set_fs _ _).
  destruct (write_chunks_run out_path chunks s1 []) as (s' & Hrun & Hfs' & _).
  { subst s1. simpl. by rewrite lookup_insert_eq. }
  unfold bind at 1. simpl. rewrite Hrun.
  exists s'. split; [done|]. rewrite Hfs'. subst s1. simpl.
  by rewrite insert_insert_eq.
Qed.

Lemma synthesize_completed voice_id text out_path s chunks :
  convert text voice_id = Return (chunks, None) →
  ∃ s', synthesize_text_to_file o voice_id text out_path s
        = (if len (concat chunks) <? 100
           then Raise (RuntimeError "Synthesized file is empty or too small")
           else Return out_path, s')
        ∧ fs s' = <[out_path := concat chunks]> (fs s).
Proof.
  intros Hc. unfold synthesize_text_to_file.
  unfold bind at 1. unfold modify at 1.
  unfold bind at 1. unfold lift. rewrite Hc.
  unfold bind at 1. unfold Os.open_wb, modify.
  set (s1 := set_fs _ _).
  destruct (write_chunks_run out_path chunks s1 []) as (s' & Hrun & Hfs' & _).
  { subst s1. simpl. by rewrite lookup_insert_eq. }
  unfold bind at 1. simpl. rewrite Hrun.
  assert (fs s' = <[out_path := concat chunks]> (fs s)) as Hfs.
  { rewrite Hfs'. subst s1. simpl. by rewrite insert_insert_eq. }
  exists s'. split; [|done].
  unfold bind at 1. unfold ret at 1.
  unfold bind. rewrite output_too_small_run, Hfs, lookup_insert_eq.
  by destruct (len (concat chunks) <? 100).
Qed.

(** *** Lines 149-163 *)

Lemma tts_block_clone_fails text ref_path out_path content s e :
  fs s !! ref_path = Some content →
  ivc_create o (clone_name_of ref_path) [content] = Raise e →
  ∃ s', tts_block o text ref_path out_path s
        = (Raise (HTTPException 500 ("TTS error: " +:+ str e)), s').
Proof.
  intros Hfs Hivc. unfold tts_block.
  exists (add_log (IvcCreate (clone_name_of ref_path) [content]) s).
  match goal with
  | |- try_except ?m _ _ = _ =>
      assert (m s = (Raise e, add_log (IvcCreate (clone_name_of ref_path) [content]) s))
        as Hin
  end.
  { unfold bind at 1. by rewrite (create_voice_run _ _ _ _ Hfs), Hivc. }
  by rewrite (try_except_Raise _ _ _ _ _ Hin).
Qed.

Lemma tts_block_synthesis_fails text ref_path out_path content s v e s1 :
  fs s !! ref_path = Some content →
  ivc_create o (clone_name_of ref_path) [content] = Return v →
  synthesize_text_to_file o (voice_id v) text out_path
    (add_log (IvcCreate (clone_name_of ref_path) [content]) s) = (Raise e, s1) →
  tts_block o text ref_path out_path s
  = (Raise (HTTPException 500 ("TTS error: " +:+ str e)), s1).
Proof.
  intros Hfs Hivc Hsyn. unfold tts_block.
  match goal with
  | |- try_except ?m _ _ = _ => assert (m s = (Raise e, s1)) as Hin
  end.
  { unfold bind at 1. rewrite (create_voice_run _ _ _ _ Hfs), Hivc.
    by rewrite (bind_Raise _ _ _ _ _ Hsyn). }
  by rewrite (try_except_Raise _ _ _ _ _ Hin).
Qed.

Lemma tts_block_streams text ref_path out_path content s v s1 audio :
  fs s !! ref_path = Some content →
  ivc_create o (clone_name_of ref_path) [content] = Return v →
  synthesize_text_to_file o (voice_id v) text out_path
    (add_log (IvcCreate (clone_name_of ref_path) [content]) s) = (Return out_path, s1) →
  fs s1 !! out_path = Some audio →
  tts_block o text ref_path out_path s
  = (Return (mkStreaming audio 200 "audio/mpeg"
               [("Content-Disposition", content_disposition)]), s1).
Proof.
  intros Hfs Hivc Hsyn Hout. unfold tts_block.
  apply try_except_Return.
  unfold bind at 1. rewrite (create_voice_run _ _ _ _ Hfs), Hivc.
  rewrite (bind_Return _ _ _ _ _ Hsyn).
  unfold bind, Os.read_file. by rewrite Hout.
Qed.

End provider.

(** ** What the endpoint raises *)

Section raises.

Variables (cfg : config) (o : outside).

(** Whatever goes wrong in lines 149-163 leaves as a 500 whose detail
    starts with ["TTS error: "]. *)
Lemma tts_block_Raise text ref_path out_path s e s' :
  tts_block o text ref_path out_path s = (Raise e, s') →
  ∃ e0, e = HTTPException 500 ("TTS error: " +:+ str e0).
Proof.
  unfold tts_block, try_except.
  destruct (bind _ _ s) as [[r|e0] s1]; [done|].
  unfold raise. intros [= <- <-]. by exists e0.
Qed.

Lemma tts_block_Return text ref_path out_path s r s' :
  tts_block o text ref_path out_path s = (Return r, s') →
  r = mkStreaming (content r) 200 "audio/mpeg"
        [("Content-Disposition", content_disposition)]
  ∧ fs s' !! out_path = Some (content r).
Proof.
  unfold tts_block, try_except.
  destruct (bind _ _ s) as [[r0|e0] s1] eqn:Hrun; [|done].
  intros [= -> ->]. revert Hrun.
  unfold bind at 1.
  destruct (create_voice_from_reference _ _ _ s) as [[v|e] s2]; [|done].
  unfold bind at 1.
  destruct (synthesize_text_to_file _ _ _ _ s2) as [[x|e] s3]; [|done].
  unfold bind, Os.read_file, ret.
  destruct (fs s3 !! out_path) as [audio|] eqn:Hout; [|done].
  by intros [= <- <-].
Qed.

Lemma tts_block_stable text ref_path out_path :
  stable same_process (tts_block o text ref_path out_path).
Proof.
  unfold tts_block.
  apply stable_try_except; [apply _| |intros; apply stable_raise, _].
  simpl. apply stable_bind; [apply _|apply create_voice_stable|]. intros v.
  apply after_clone_stable, _.
Qed.

End raises.

(** ** The endpoint turns an oversized reference down *)

Lemma endpoint_oversized cfg o ref_audio text s max p s1 content :
  MAX_REF_BYTES s = (Return max, s) →
  _save_upload_tempfile o ref_audio s = (Return p, s1) →
  fs s1 !! p = Some content →
  max < len content →
  synthesize_endpoint cfg o ref_audio text (BACKEND_ACCESS_KEY cfg) s
  = (Raise (HTTPException 500 "Failed to save reference: 400: Reference file too large"),
     add_log (Removed p) (set_fs (delete p) s1)).
Proof.
  intros Hmax Hsave Hfs Hsize. rewrite synthesize_endpoint_blocks.
  rewrite bool_decide_eq_false_2 by (by intros []).
  rewrite (bind_Return _ _ _ _ _ Hmax).
  by rewrite (bind_Raise _ _ _ _ _
                (save_block_rejects _ _ _ _ _ _ _ Hsave Hfs Hsize)).
Qed.

(** * The claims *)

(** ** The size limit *)

(** C1 (the code departs from the claim).  For an authorized request whose
    saved reference file is larger than the ceiling, the file is removed at
    once and nothing is queued, as claimed; but the [HTTPException(400,
    "Reference file too large")] is raised inside the block whose
    [except Exception] catches it, so the request ends with status 500 and
    detail ["Failed to save reference: 400: Reference file too large"], not
    with status 400. *)
Theorem oversized_reference_answered_500 cfg o ref_audio text s max p s1 content :
  MAX_REF_BYTES s = (Return max, s) →
  _save_upload_tempfile o ref_audio s = (Return p, s1) →
  fs s1 !! p = Some content →
  max < len content →
  let run := synthesize_endpoint cfg o ref_audio text (BACKEND_ACCESS_KEY cfg) s in
  run.1 = Raise (HTTPException 500 "Failed to save reference: 400: Reference file too large")
  ∧ Framework.status_of (Framework.respond run.1) = 500
  ∧ fs run.2 = delete p (fs s1)
  ∧ log run.2 = Removed p :: log s1
  ∧ tasks run.2 = tasks s.
Proof.
  intros Hmax Hsave Hfs Hsize run.
  subst run. rewrite (endpoint_oversized cfg o _ text _ _ _ _ _ Hmax Hsave Hfs Hsize).
  repeat split; try done. simpl.
  by destruct (_save_upload_tempfile_stable same_process o ref_audio s) as (_ & _ & Ht);
    rewrite Hsave in Ht.
Qed.

(** C9.  The comparison with the ceiling is strict.  A saved reference whose
    size equals the ceiling is accepted: once the output file is allocated,
    the request goes on to lines 149-163, where the provider is asked to
    clone from the file's bytes.  The request is turned down as too large
    exactly when the size is strictly greater than the ceiling. *)
Theorem size_limit_is_strict cfg o ref_audio text s max p s1 content :
  MAX_REF_BYTES s = (Return max, s) →
  _save_upload_tempfile o ref_audio s = (Return p, s1) →
  fs s1 !! p = Some content →
  let run := synthesize_endpoint cfg o ref_audio text (BACKEND_ACCESS_KEY cfg) s in
  (len content = max →
   ∀ out_path s2,
     Tempfile.NamedTemporaryFile (out_names o) ".mp3" "out_" s1 = (Return out_path, s2) →
     ∃ s3, run = tts_block o text p out_path s3
           ∧ create_voice_from_reference o (clone_name_of p) p s3
             = (ivc_create o (clone_name_of p) [content],
                add_log (IvcCreate (clone_name_of p) [content]) s3))
  ∧ (run.1 = Raise (HTTPException 500
                      "Failed to save reference: 400: Reference file too large")
     ↔ max < len content).
Proof.
  intros Hmax Hsave Hfs run. split.
  - intros Heq out_path s2 Hout.
    exists (push_task (Some out_path) (push_task (Some p) s2)). split.
    + subst run. eapply endpoint_accepted; eauto. lia.
    + apply create_voice_run.
      destruct (reference_kept _ _ _ _ _ _ _ _ Hfs Hout) as [Hne ->].
      by rewrite lookup_insert_ne.
  - split.
    + intros Hrun. destruct (Z.lt_ge_cases max (len content)) as [|Hle]; [done|].
      exfalso. revert Hrun. subst run.
      rewrite synthesize_endpoint_blocks.
      rewrite bool_decide_eq_false_2 by (by intros []).
      rewrite (bind_Return _ _ _ _ _ Hmax).
      rewrite (bind_Return _ _ _ _ _ (save_block_accepts _ _ _ _ _ _ _ Hsave Hfs Hle)).
      unfold bind at 1.
      destruct (Tempfile.NamedTemporaryFile _ _ _ s1) as [[out_path|e] s2] eqn:Hout.
      * unfold bind, modify.
        destruct (tts_block _ _ _ _ _) as [[r|e] s4] eqn:Hblock; [done|].
        apply tts_block_Raise in Hblock as [e0 ->]. simpl. intros [= H].
      * apply NamedTemporaryFile_Raise in Hout as [_ [msg ->]]. done.
    + intros Hlt. subst run.
      by rewrite (endpoint_oversized cfg o _ text _ _ _ _ _ Hmax Hsave Hfs Hlt).
Qed.

(** ** After the size check *)

Section accepted.

Variables (cfg : config) (o : outside) (ref_audio : UploadFile) (text : string).
Variables (s s1 s2 : state) (max : Z) (p out_path : string) (content : bytes).

(** The request is authorized, its reference is saved and not larger than
    the ceiling, and the output file is allocated. *)
Hypothesis Hmax : MAX_REF_BYTES s = (Return max, s).
Hypothesis Hsave : _save_upload_tempfile o ref_audio s = (Return p, s1).
Hypothesis Hfs : fs s1 !! p = Some content.
Hypothesis Hsize : len content <= max.
Hypothesis Hout :
  Tempfile.NamedTemporaryFile (out_names o) ".mp3" "out_" s1 = (Return out_path, s2).

Let run := synthesize_endpoint cfg o ref_audio text (BACKEND_ACCESS_KEY cfg) s.
Let s3 := push_task (Some out_path) (push_task (Some p) s2).

Lemma accepted_run : run = tts_block o text p out_path s3.
Proof. subst run s3. eapply endpoint_accepted; eauto. Qed.

Lemma accepted_reference : fs s3 !! p = Some content.
Proof.
  destruct (reference_kept _ _ _ _ _ _ _ _ Hfs Hout) as [Hne Heq].
  subst s3. rewrite Heq. by rewrite lookup_insert_ne.
Qed.

(** Both files are queued for removal, once each, whatever the provider
    does. *)
Lemma accepted_tasks : tasks run.2 = tasks s ++ [Some p; Some out_path].
Proof.
  rewrite accepted_run.
  destruct (tts_block_stable o text p out_path s3) as (_ & _ & ->).
  apply NamedTemporaryFile_Return in Hout as [_ ->].
  destruct (_save_upload_tempfile_stable same_process o ref_audio s) as (_ & _ & Ht).
  rewrite Hsave in Ht. subst s3. simpl in *. rewrite Ht.
  by rewrite <-app_assoc.
Qed.

(** C6.  When the provider's clone call or synthesis call fails with [e]
    after authorization and the size check, the request ends with status
    500 and the detail ["TTS error: "] followed by [str(e)]. *)
Theorem provider_failure_answered_500 e :
  provider_fails o text p content e →
  run.1 = Raise (HTTPException 500 ("TTS error: " +:+ str e))
  ∧ Framework.respond run.1 = Framework.JsonDetail 500 ("TTS error: " +:+ str e).
Proof.
  intros Hfail.
  assert (run.1 = Raise (HTTPException 500 ("TTS error: " +:+ str e))) as Hrun.
  { rewrite accepted_run. pose proof accepted_reference as Href.
    destruct Hfail as [e Hivc | v e Hivc Hconv | v chunks e Hivc Hconv].
    - by destruct (tts_block_clone_fails o text p out_path _ _ _ Href Hivc) as [s' ->].
    - edestruct (synthesize_refused o (voice_id v) text out_path) as (s' & Hsyn & _);
        [exact Hconv|].
      by rewrite (tts_block_synthesis_fails o _ _ _ _ _ _ _ _ Href Hivc Hsyn).
    - edestruct (synthesize_interrupted o (voice_id v) text out_path) as (s' & Hsyn & _);
        [exact Hconv|].
      by rewrite (tts_block_synthesis_fails o _ _ _ _ _ _ _ _ Href Hivc Hsyn). }
  split; [done|]. by rewrite Hrun.
Qed.

(** C5.  When the chunk sequence is exhausted and what was written to the
    output file is below the minimum size, the synthesize operation raises
    its "empty or too small" error, and the request ends with status 500,
    not 200. *)
Theorem small_output_is_a_synthesis_failure v chunks :
  ivc_create o (clone_name_of p) [content] = Return v →
  tts_convert o text (voice_id v) "eleven_multilingual_v2" OUTPUT_FORMAT
    = Return (chunks, None) →
  len (concat chunks) < 100 →
  (∀ s0, (synthesize_text_to_file o (voice_id v) text out_path s0).1
         = Raise (RuntimeError "Synthesized file is empty or too small"))
  ∧ run.1 = Raise (HTTPException 500 "TTS error: Synthesized file is empty or too small")
  ∧ Framework.status_of (Framework.respond run.1) = 500
  ∧ Framework.status_of (Framework.respond run.1) ≠ 200.
Proof.
  intros Hivc Hconv Hsmall.
  assert (∀ s0, ∃ s0',
    synthesize_text_to_file o (voice_id v) text out_path s0
    = (Raise (RuntimeError "Synthesized file is empty or too small"), s0')) as Hsyn.
  { intros s0.
    destruct (synthesize_completed o (voice_id v) text out_path s0 chunks Hconv)
      as (s0' & Hrun & _).
    exists s0'. rewrite Hrun. by rewrite (proj2 (Z.ltb_lt _ _)). }
  split.
  { intros s0. by destruct (Hsyn s0) as [s0' ->]. }
  assert (run.1 = Raise (HTTPException 500
            "TTS error: Synthesized file is empty or too small")) as Hrun.
  { rewrite accepted_run.
    destruct (Hsyn (add_log (IvcCreate (clone_name_of p) [content]) s3)) as [s' Hs'].
    by rewrite (tts_block_synthesis_fails o _ _ _ _ _ _ _ _
                  accepted_reference Hivc Hs'). }
  rewrite Hrun. by repeat split.
Qed.

End accepted.

(** ** The success response *)


(** ** The minimum output size *)

(** C10.  The threshold of the check after synthesis is 100 bytes: an output
    of 100 bytes (or more) passes, an output of 99 bytes or fewer raises the
    "empty or too small" error, and so does a missing file. *)
Theorem minimum_output_size_is_100 o voice_id text out_path chunks :
  tts_convert o text voice_id "eleven_multilingual_v2" OUTPUT_FORMAT
    = Return (chunks, None) →
  (∀ s, 100 <= len (concat chunks) →
        (synthesize_text_to_file o voice_id text out_path s).1 = Return out_path)
  ∧ (∀ s, len (concat chunks) <= 99 →
          (synthesize_text_to_file o voice_id text out_path s).1
          = Raise (RuntimeError "Synthesized file is empty or too small"))
  ∧ (∀ s audio, fs s !! out_path = Some audio →
                output_too_small out_path s = (Return (bool_decide (len audio <= 99)), s))
  ∧ (∀ s, fs s !! out_path = None → output_too_small out_path s = (Return true, s)).
Proof.
  intros Hconv. repeat split.
  - intros s Hsize.
    destruct (synthesize_completed o voice_id text out_path s chunks Hconv)
      as (s' & -> & _).
    by rewrite (proj2 (Z.ltb_ge _ _)).
  - intros s Hsize.
    destruct (synthesize_completed o voice_id text out_path s chunks Hconv)
      as (s' & -> & _).
    by rewrite (proj2 (Z.ltb_lt _ _)) by lia.
  - intros s audio Hfs. rewrite output_too_small_run, Hfs. do 2 f_equal.
    destruct (Z.ltb_spec (len audio) 100).
    + by rewrite bool_decide_eq_true_2 by lia.
    + by rewrite bool_decide_eq_false_2 by lia.
  - intros s Hfs. by rewrite output_too_small_run, Hfs.
Qed.

(** ** A copy that fails *)

Lemma copy_upload_first_write_fails o tmp data s e :
  data ≠ [] → write_error o 0%nat = Some e →
  copy_upload o tmp data 0 s = (Raise e, s).
Proof.
  intros Hdata Hw. rewrite copy_upload_step.
  destruct data as [|b data]; [done|].
  change (read (1024 * 1024) (b :: data))
    with (let (chunk, rest) := read (1024 * 1024 - 1) data in (b :: chunk, rest)).
  destruct (read _ data) as [chunk rest].
  unfold tmp_write. by rewrite Hw.
Qed.

Lemma save_first_write_fails o ref_audio s name e p :
  filename ref_audio = Some name →
  file ref_audio ≠ [] →
  write_error o 0%nat = Some e →
  Tempfile.free_name (fs s) (tempdir s) "ref_"
    (if PyStr.is_empty (OsPath.splitext name).2 then ".wav" else (OsPath.splitext name).2)
    (ref_names o) = Some p →
  _save_upload_tempfile o ref_audio s
  = (Raise e, add_log (Created p) (set_fs (insert p []) s)).
Proof.
  intros Hname Hdata Hw Hfree. unfold _save_upload_tempfile. rewrite Hname.
  unfold bind at 1. unfold ret at 1.
  unfold bind at 1. unfold Tempfile.NamedTemporaryFile. rewrite Hfree.
  unfold bind, try_finally.
  by rewrite (copy_upload_first_write_fails _ _ _ _ _ Hdata Hw).
Qed.

(** C2 (the code departs from the claim).  When the first write of the
    upload copy fails, the reference file has been created and stays: the
    request ends with status 500, the file is still there, it was not
    removed and no removal of it is queued. *)
Theorem failed_copy_leaves_reference_file cfg o ref_audio text s max name e p :
  MAX_REF_BYTES s = (Return max, s) →
  filename ref_audio = Some name →
  file ref_audio ≠ [] →
  write_error o 0%nat = Some e →
  Tempfile.free_name (fs s) (tempdir s) "ref_"
    (if PyStr.is_empty (OsPath.splitext name).2 then ".wav" else (OsPath.splitext name).2)
    (ref_names o) = Some p →
  let run := synthesize_endpoint cfg o ref_audio text (BACKEND_ACCESS_KEY cfg) s in
  run.1 = Raise (HTTPException 500 ("Failed to save reference: " +:+ str e))
  ∧ fs run.2 !! p = Some []
  ∧ log run.2 = Created p :: log s
  ∧ tasks run.2 = tasks s.
Proof.
  intros Hmax Hname Hdata Hw Hfree run. subst run.
  rewrite synthesize_endpoint_blocks.
  rewrite bool_decide_eq_false_2 by (by intros []).
  rewrite (bind_Return _ _ _ _ _ Hmax).
  rewrite (bind_Raise _ _ _ _ _
             (save_block_fails _ _ _ _ _ _
                (save_first_write_fails _ _ _ _ _ _ Hname Hdata Hw Hfree))).
  simpl. by rewrite lookup_insert_eq.
Qed.

(** ** Authorization *)

(** A request with the wrong key never gets past the first line. *)
Lemma post_unauthorized cfg o x_api_key ref_audio text s :
  x_api_key ≠ BACKEND_ACCESS_KEY cfg →
  Framework.post_synthesize cfg o
    (Framework.mkRequest (Some x_api_key) (Some ref_audio) (Some text)) s
  = (Framework.JsonDetail 401 "Unauthorized", Framework.clear_tasks s).
Proof.
  intros Hkey. unfold Framework.post_synthesize. simpl.
  by rewrite (endpoint_unauthorized cfg o _ _ _ _ Hkey).
Qed.

(** C3, as stated, fails: a request without the [X-API-KEY] header is
    answered 422 by the framework, not 401. *)
Lemma missing_key_is_not_answered_401 :
  ¬ (∀ cfg o req s,
       Framework.header_x_api_key req ≠ Some (BACKEND_ACCESS_KEY cfg) →
       Framework.status_of (Framework.post_synthesize cfg o req s).1 = 401).
Proof.
  intros H.
  specialize (H Demo.cfg Demo.provider_ok (Demo.req None 4) Demo.s0).
  by specialize (H ltac:(done)).
Qed.

(** C3, amended.  A request whose [X-API-KEY] is missing or differs from the
    secret creates no file and reaches no provider call: the file system and
    the log are as before.  With the header and both form fields present the
    answer is 401 with detail ["Unauthorized"]; with the header (or a form
    field) missing the framework answers 422 before the endpoint runs.  The
    dependency [_auth_header] raises the same 401 on a key that differs. *)
Theorem unauthorized_request_touches_nothing cfg o req s :
  Framework.header_x_api_key req ≠ Some (BACKEND_ACCESS_KEY cfg) →
  let run := Framework.post_synthesize cfg o req s in
  fs run.2 = fs s
  ∧ log run.2 = log s
  ∧ (Framework.missing_fields req = [] →
     run.1 = Framework.JsonDetail 401 "Unauthorized")
  ∧ (Framework.missing_fields req ≠ [] →
     run.1 = Framework.ValidationError (Framework.missing_fields req)
     ∧ Framework.status_of run.1 = 422)
  ∧ (∀ x_api_key, Framework.header_x_api_key req = Some x_api_key →
       _auth_header cfg x_api_key s = (Raise (HTTPException 401 "Unauthorized"), s)).
Proof.
  intros Hkey run. subst run.
  destruct req as [[k|] [u|] [t|]]; simpl in *;
    try (repeat split; (done || (intros ? [= <-]; unfold _auth_header;
           rewrite bool_decide_eq_true_2 by congruence; done))).
  assert (k ≠ BACKEND_ACCESS_KEY cfg) as Hk by congruence.
  rewrite post_unauthorized by done. simpl.
  repeat split; try done.
  intros ? [= <-]. unfold _auth_header. by rewrite bool_decide_eq_true_2.
Qed.

(** ** Where the configuration is read *)

Section blind.


























End blind.



(** ** Clone names *)

(** C7, as stated, fails: the same request served twice, the first one
    answered and cleaned up before the second arrives, and the generator
    proposing the same name again, gives the same clone name twice. *)
Lemma clone_name_reused_after_cleanup :
  let first := Framework.post_synthesize Demo.cfg Demo.provider_ok
                 (Demo.req (Some "s3cret") 4) Demo.s0 in
  let second := Framework.post_synthesize Demo.cfg Demo.provider_ok
                  (Demo.req (Some "s3cret") 4) first.2 in
  Framework.status_of first.1 = 200
  ∧ Framework.status_of second.1 = 200
  ∧ clone_names (log second.2)
    = ["ref_clone_ref_k3x9_a0b.wav"; "ref_clone_ref_k3x9_a0b.wav"].
Proof. vm_compute. done. Qed.

Section clone_names.

Lemma generated_name_no_slash name :
  generated_name name = true → PyStr.mem "/"%char name = false.
Proof.
  induction name as [|c name IH]; simpl; [done|].
  intros [Hc Hname]%andb_prop.
  destruct (Ascii.eqb_spec c "/"%char) as [-> | _]; [done | auto].
Qed.

(** The base name of a reference file is its path without the directory. *)
Lemma reference_basename o upload s p s1 :
  Forall (λ name, generated_name name = true) (ref_names o) →
  _save_upload_tempfile o upload s = (Return p, s1) →
  fs s !! p = None ∧ p = OsPath.join (tempdir s) (OsPath.basename p).
Proof.
  intros Hnames Hsave.
  apply _save_upload_tempfile_Return in Hsave as (name & suffix & _ & Hsuffix & Hfree).
  apply free_name_Some in Hfree as (Hnone & n & Hn & ->).
  split; [done|]. rewrite basename_join; [done|].
  rewrite !mem_append. simpl.
  rewrite Forall_forall in Hnames.
  rewrite (generated_name_no_slash n) by auto. simpl.
  subst suffix. destruct (PyStr.is_empty _); [done|].
  apply splitext_ext_no_slash.
Qed.

(** The clone call of lines 149-163 carries the name made from the
    reference path, and it is the only clone call. *)
Lemma tts_block_clone_names o text ref_path out_path content s :
  fs s !! ref_path = Some content →
  clone_names (log (tts_block o text ref_path out_path s).2)
  = clone_name_of ref_path :: clone_names (log s).
Proof.
  intros Hfs. unfold tts_block, try_except.
  unfold bind at 1. rewrite (create_voice_run _ _ _ _ _ Hfs).
  destruct (ivc_create _ _ _) as [v|e]; [|done].
  set (s1 := add_log _ s).
  pose proof (after_clone_stable no_clone o text out_path v s1) as Hquiet.
  simpl in Hquiet.
  destruct (bind _ _ s1) as [[r|e] s2]; simpl in *; exact Hquiet.
Qed.

Lemma accepted_clone_name cfg o ref_audio text s p :
  accepted o ref_audio s p →
  clone_names (log (synthesize_endpoint cfg o ref_audio text
                      (BACKEND_ACCESS_KEY cfg) s).2)
  = clone_name_of p :: clone_names (log s).
Proof.
  intros (max & s1 & content & out_path & s2 & Hmax & Hsave & Hfs & Hsize & Hout).
  rewrite (endpoint_accepted cfg o _ text _ _ _ _ _ _ _ Hmax Hsave Hfs Hsize Hout).
  destruct (reference_kept _ _ _ _ _ _ _ _ Hfs Hout) as [Hne Heq].
  rewrite (tts_block_clone_names _ _ _ _ content).
  - f_equal. apply NamedTemporaryFile_Return in Hout as [_ ->]. simpl.
    pose proof (_save_upload_tempfile_stable no_clone o ref_audio s) as Hquiet.
    by rewrite Hsave in Hquiet.
  - rewrite Heq. by rewrite lookup_insert_ne.
Qed.

End clone_names.

(** C7, amended.  Two accepted requests of one process get distinct clone
    names when the reference file of the first still exists as the second
    is served: each clone name is ["ref_clone_"] followed by the base name
    of the request's reference file, and a temporary file is never created
    under the path of an existing one. *)
Theorem clone_names_differ_while_reference_exists
    cfg o1 o2 ref_audio1 ref_audio2 text1 text2 s s' p1 p2 :
  Forall (λ name, generated_name name = true) (ref_names o1) →
  Forall (λ name, generated_name name = true) (ref_names o2) →
  accepted o1 ref_audio1 s p1 →
  accepted o2 ref_audio2 s' p2 →
  tempdir s' = tempdir s →
  is_Some (fs s' !! p1) →
  let first := synthesize_endpoint cfg o1 ref_audio1 text1 (BACKEND_ACCESS_KEY cfg) s in
  let second := synthesize_endpoint cfg o2 ref_audio2 text2 (BACKEND_ACCESS_KEY cfg) s' in
  clone_names (log first.2) = clone_name_of p1 :: clone_names (log s)
  ∧ clone_names (log second.2) = clone_name_of p2 :: clone_names (log s')
  ∧ clone_name_of p1 ≠ clone_name_of p2.
Proof.
  intros Hnames1 Hnames2 Hacc1 Hacc2 Hdir [c Hthere] first second.
  split; [by apply accepted_clone_name|]. split; [by apply accepted_clone_name|].
  destruct Hacc1 as (_ & s1 & _ & _ & _ & _ & Hsave1 & _).
  destruct Hacc2 as (_ & s1' & _ & _ & _ & _ & Hsave2 & _).
  destruct (reference_basename _ _ _ _ _ Hnames1 Hsave1) as [_ Hp1].
  destruct (reference_basename _ _ _ _ _ Hnames2 Hsave2) as [Hfree Hp2].
  unfold clone_name_of. intros Heq%append_inj_l.
  assert (p1 = p2) as -> by (rewrite Hp1, Hp2, Hdir; by rewrite Heq).
  congruence.
Qed.

(** ** The claims at work *)

Lemma oversized_reference_answered_500_witness :
  let run := synthesize_endpoint Demo.cfg Demo.provider_ok (Demo.wav 6) "hello world"
               (BACKEND_ACCESS_KEY Demo.cfg) Demo.s5 in
  run.1 = Raise (HTTPException 500
                   "Failed to save reference: 400: Reference file too large")
  ∧ Framework.status_of (Framework.respond run.1) = 500
  ∧ fs run.2 = delete Demo.ref_path (fs (Demo.saved Demo.provider_ok 6 Demo.s5))
  ∧ log run.2 = Removed Demo.ref_path :: log (Demo.saved Demo.provider_ok 6 Demo.s5)
  ∧ tasks run.2 = tasks Demo.s5.
Proof.
  apply (oversized_reference_answered_500 Demo.cfg Demo.provider_ok (Demo.wav 6)
           "hello world" Demo.s5 5 Demo.ref_path
           (Demo.saved Demo.provider_ok 6 Demo.s5) (Demo.b 6));
    by vm_compute.
Defined.

Lemma failed_copy_leaves_reference_file_witness :
  let run := synthesize_endpoint Demo.cfg Demo.disk_full (Demo.wav 4) "hello world"
               (BACKEND_ACCESS_KEY Demo.cfg) Demo.s0 in
  run.1 = Raise (HTTPException 500
                   ("Failed to save reference: "
                    +:+ str (OSError "[Errno 28] No space left on device")))
  ∧ fs run.2 !! Demo.ref_path = Some []
  ∧ log run.2 = Created Demo.ref_path :: log Demo.s0
  ∧ tasks run.2 = tasks Demo.s0.
Proof.
  apply (failed_copy_leaves_reference_file Demo.cfg Demo.disk_full (Demo.wav 4)
           "hello world" Demo.s0 (10 * 1024 * 1024) "sample.wav"
           (OSError "[Errno 28] No space left on device") Demo.ref_path);
    by vm_compute.
Defined.

Lemma unauthorized_request_touches_nothing_witness :
  let run := Framework.post_synthesize Demo.cfg Demo.provider_ok
               (Demo.req (Some "guess") 4) Demo.s0 in
  fs run.2 = fs Demo.s0
  ∧ log run.2 = log Demo.s0
  ∧ (Framework.missing_fields (Demo.req (Some "guess") 4) = [] →
     run.1 = Framework.JsonDetail 401 "Unauthorized")
  ∧ (Framework.missing_fields (Demo.req (Some "guess") 4) ≠ [] →
     run.1 = Framework.ValidationError (Framework.missing_fields (Demo.req (Some "guess") 4))
     ∧ Framework.status_of run.1 = 422)
  ∧ (∀ x_api_key,
       Framework.header_x_api_key (Demo.req (Some "guess") 4) = Some x_api_key →
       _auth_header Demo.cfg x_api_key Demo.s0
       = (Raise (HTTPException 401 "Unauthorized"), Demo.s0)).
Proof.
  apply (unauthorized_request_touches_nothing Demo.cfg Demo.provider_ok
           (Demo.req (Some "guess") 4) Demo.s0).
  by vm_compute.
Defined.

Lemma provider_failure_answered_500_witness :
  let run := synthesize_endpoint Demo.cfg Demo.clone_refused (Demo.wav 4) "hello world"
               (BACKEND_ACCESS_KEY Demo.cfg) Demo.s0 in
  run.1 = Raise (HTTPException 500
                   ("TTS error: "
                    +:+ str (ApiError "status_code: 400, body: voice sample too short")))
  ∧ Framework.respond run.1
    = Framework.JsonDetail 500
        ("TTS error: " +:+ str (ApiError "status_code: 400, body: voice sample too short")).
Proof.
  apply (provider_failure_answered_500 Demo.cfg Demo.clone_refused (Demo.wav 4)
           "hello world" Demo.s0 (Demo.saved Demo.clone_refused 4 Demo.s0)
           (Demo.allocated Demo.clone_refused 4 Demo.s0)
           (10 * 1024 * 1024) Demo.ref_path Demo.out_path (Demo.b 4));
    try by vm_compute.
  apply clone_raises. by vm_compute.
Defined.

Lemma small_output_is_a_synthesis_failure_witness :
  let run := synthesize_endpoint Demo.cfg Demo.short_audio (Demo.wav 4) "hello world"
               (BACKEND_ACCESS_KEY Demo.cfg) Demo.s0 in
  (∀ s0, (synthesize_text_to_file Demo.short_audio "voice-1" "hello world"
            Demo.out_path s0).1
         = Raise (RuntimeError "Synthesized file is empty or too small"))
  ∧ run.1 = Raise (HTTPException 500 "TTS error: Synthesized file is empty or too small")
  ∧ Framework.status_of (Framework.respond run.1) = 500
  ∧ Framework.status_of (Framework.respond run.1) ≠ 200.
Proof.
  apply (small_output_is_a_synthesis_failure Demo.cfg Demo.short_audio (Demo.wav 4)
           "hello world" Demo.s0 (Demo.saved Demo.short_audio 4 Demo.s0)
           (Demo.allocated Demo.short_audio 4 Demo.s0)
           (10 * 1024 * 1024) Demo.ref_path Demo.out_path (Demo.b 4)
           ltac:(by vm_compute) ltac:(by vm_compute) ltac:(by vm_compute)
           ltac:(by vm_compute) ltac:(by vm_compute)
           (mkVoice "voice-1") [Demo.b 90; Demo.b 9]);
    by vm_compute.
Defined.


Lemma size_limit_is_strict_witness :
  let run := synthesize_endpoint Demo.cfg Demo.provider_ok (Demo.wav 5) "hello world"
               (BACKEND_ACCESS_KEY Demo.cfg) Demo.s5 in
  (len (Demo.b 5) = 5 →
   ∀ out_path s2,
     Tempfile.NamedTemporaryFile (out_names Demo.provider_ok) ".mp3" "out_"
       (Demo.saved Demo.provider_ok 5 Demo.s5) = (Return out_path, s2) →
     ∃ s3, run = tts_block Demo.provider_ok "hello world" Demo.ref_path out_path s3
           ∧ create_voice_from_reference Demo.provider_ok
               (clone_name_of Demo.ref_path) Demo.ref_path s3
             = (ivc_create Demo.provider_ok (clone_name_of Demo.ref_path) [Demo.b 5],
                add_log (IvcCreate (clone_name_of Demo.ref_path) [Demo.b 5]) s3))
  ∧ (run.1 = Raise (HTTPException 500
                      "Failed to save reference: 400: Reference file too large")
     ↔ 5 < len (Demo.b 5)).
Proof.
  apply (size_limit_is_strict Demo.cfg Demo.provider_ok (Demo.wav 5) "hello world"
           Demo.s5 5 Demo.ref_path (Demo.saved Demo.provider_ok 5 Demo.s5) (Demo.b 5));
    by vm_compute.
Defined.

Lemma minimum_output_size_is_100_witness :
  (∀ s, 100 <= len (concat [Demo.b 50; Demo.b 50]) →
        (synthesize_text_to_file Demo.exact_audio "voice-1" "hello world"
           Demo.out_path s).1 = Return Demo.out_path)
  ∧ (∀ s, len (concat [Demo.b 50; Demo.b 50]) <= 99 →
          (synthesize_text_to_file Demo.exact_audio "voice-1" "hello world"
             Demo.out_path s).1
          = Raise (RuntimeError "Synthesized file is empty or too small"))
  ∧ (∀ s audio, fs s !! Demo.out_path = Some audio →
                output_too_small Demo.out_path s
                = (Return (bool_decide (len audio <= 99)), s))
  ∧ (∀ s, fs s !! Demo.out_path = None →
          output_too_small Demo.out_path s = (Return true, s)).
Proof.
  apply (minimum_output_size_is_100 Demo.exact_audio "voice-1" "hello world"
           Demo.out_path [Demo.b 50; Demo.b 50]).
  by vm_compute.
Defined.

Lemma clone_names_differ_while_reference_exists_witness :
  let first := synthesize_endpoint Demo.cfg Demo.provider_ok (Demo.wav 4) "hello world"
                 (BACKEND_ACCESS_KEY Demo.cfg) Demo.s0 in
  let second := synthesize_endpoint Demo.cfg Demo.provider_next (Demo.wav 4)
                  "hello world" (BACKEND_ACCESS_KEY Demo.cfg) first.2 in
  clone_names (log first.2) = clone_name_of Demo.ref_path :: clone_names (log Demo.s0)
  ∧ clone_names (log second.2)
    = clone_name_of "/tmp/ref_m4n8_c1d.wav" :: clone_names (log first.2)
  ∧ clone_name_of Demo.ref_path ≠ clone_name_of "/tmp/ref_m4n8_c1d.wav".
Proof.
  apply (clone_names_differ_while_reference_exists Demo.cfg Demo.provider_ok
           Demo.provider_next (Demo.wav 4) (Demo.wav 4) "hello world" "hello world"
           Demo.s0
           (synthesize_endpoint Demo.cfg Demo.provider_ok (Demo.wav 4) "hello world"
              (BACKEND_ACCESS_KEY Demo.cfg) Demo.s0).2
           Demo.ref_path "/tmp/ref_m4n8_c1d.wav").
  - repeat constructor.
  - repeat constructor.
  - exists (10 * 1024 * 1024), (Demo.saved Demo.provider_ok 4 Demo.s0), (Demo.b 4),
      Demo.out_path, (Demo.allocated Demo.provider_ok 4 Demo.s0).
    repeat split; by vm_compute.
  - set (s' := (synthesize_endpoint Demo.cfg Demo.provider_ok (Demo.wav 4)
                  "hello world" (BACKEND_ACCESS_KEY Demo.cfg) Demo.s0).2).
    exists (10 * 1024 * 1024), (Demo.saved Demo.provider_next 4 s'), (Demo.b 4),
      "/tmp/out_z6y0_e2f.mp3", (Demo.allocated Demo.provider_next 4 s').
    repeat split; by vm_compute.
  - by vm_compute.
  - exists (Demo.b 4). by vm_compute.
Defined.


(** * Further properties of [app/main.py] *)

(** ** Saving the upload *)

(** Whatever the outcome of the copy loop, it touches one file only, and
    when it ends well that file has received all the bytes. *)
Lemma copy_upload_outcome o tmp data k s c r s' :
  fs s !! tmp = Some c →
  copy_upload o tmp data k s = (r, s') →
  log s' = log s
  ∧ ∃ c', fs s' = <[tmp := c']> (fs s) ∧ (r = Return tt → c' = c ++ data).
Proof.
  remember (length data) as n eqn:Hn. revert data k s c Hn.
  induction n as [n IH] using lt_wf_ind. intros data k s c -> Hfs.
  rewrite copy_upload_step.
  pose proof (read_app (1024 * 1024) data) as Happ.
  destruct (read (1024 * 1024) data) as [[|b chunk] rest] eqn:Hread; simpl in Happ.
  - intros [= <- <-]. split; [done|]. exists c. split; [by rewrite insert_id|].
    intros _. subst rest.
    destruct data as [|x data]; [|simpl in Hread; by destruct (read _ data)].
    by rewrite app_nil_r.
  - unfold tmp_write. destruct (write_error o k) as [e|].
    + intros [= <- <-]. split; [done|]. exists c. split; [by rewrite insert_id | done].
    + unfold Os.append, modify. set (s1 := set_fs _ s). intros Hrun.
      destruct (IH (length rest) (read_shrinks _ _ _ _ _ Hread) rest (S k) s1
                  (c ++ b :: chunk) eq_refl) as (Hlog & c' & Hfs' & Hc'); [|exact Hrun|].
      { subst s1. simpl. by rewrite Hfs, lookup_insert_eq. }
      split; [done|]. exists c'. split.
      * rewrite Hfs'. subst s1. simpl. by rewrite insert_insert_eq.
      * intros Hr. rewrite (Hc' Hr), <-app_assoc, <-Happ. done.
Qed.

(** The three ways [_save_upload_tempfile] ends: before a file is created,
    with the state as it was; or with one new file, under a path that was
    free, holding the whole upload when the function returns. *)
Lemma _save_upload_tempfile_outcome o upload s r s1 :
  _save_upload_tempfile o upload s = (r, s1) →
  (s1 = s ∧ ∃ e, r = Raise e)
  ∨ ∃ p c, fs s !! p = None
           ∧ fs s1 = <[p := c]> (fs s)
           ∧ log s1 = Created p :: log s
           ∧ (∀ p', r = Return p' → p' = p ∧ c = file upload).
Proof.
  unfold _save_upload_tempfile.
  destruct (filename upload) as [name|].
  2:{ intros [= <- <-]. left. eauto. }
  unfold bind at 1. unfold ret at 1. unfold bind at 1.
  destruct (Tempfile.NamedTemporaryFile _ _ _ s) as [[tmp|e] s0] eqn:Htmp.
  2:{ apply NamedTemporaryFile_Raise in Htmp as [-> _].
      intros [= <- <-]. left. eauto. }
  apply NamedTemporaryFile_Return in Htmp as [Hfree ->].
  apply free_name_Some in Hfree as [Hnone _].
  unfold bind, try_finally, ret.
  destruct (copy_upload _ _ _ _ _) as [r0 s2] eqn:Hcopy.
  apply (copy_upload_outcome _ _ _ _ _ []) in Hcopy as (Hlog & c & Hfs & Hc);
    [|simpl; by rewrite lookup_insert_eq].
  intros Hr. right. exists tmp, c.
  assert (s1 = s2 ∧ (∀ p', r = Return p' → p' = tmp ∧ r0 = Return tt)) as [-> Hret].
  { destruct r0 as [[]|e]; injection Hr as <- <-; split; try done.
    by intros p' [= <-]. }
  split; [done|]. split; [rewrite Hfs; simpl; by rewrite insert_insert_eq|].
  split; [done|]. intros p' Hp'. destruct (Hret p' Hp') as [-> Hr0]. auto.
Qed.

(** The saved reference has the size of the upload. *)
Lemma saved_file_size o upload s p s1 :
  _save_upload_tempfile o upload s = (Return p, s1) →
  fs s1 !! p = Some (file upload)
  ∧ Os.getsize p s1 = (Return (len (file upload)), s1).
Proof.
  intros Hsave.
  destruct (_save_upload_tempfile_outcome _ _ _ _ _ Hsave)
    as [[_ [e ?]] | (p' & c & Hnone & Hfs & _ & Hret)]; [done|].
  destruct (Hret p eq_refl) as [-> ->].
  unfold Os.getsize. by rewrite Hfs, lookup_insert_eq.
Qed.

(** X1.  Whenever [_save_upload_tempfile] returns a path, no file existed
    under it before, and reading the file back gives the bytes of the
    upload, whatever their number and however the 1 MiB reads cut them;
    [os.path.getsize] gives their count. *)
Theorem saved_reference_reads_back o upload s p s1 :
  _save_upload_tempfile o upload s = (Return p, s1) →
  fs s !! p = None
  ∧ Os.read_file p s1 = (Return (file upload), s1)
  ∧ Os.getsize p s1 = (Return (len (file upload)), s1).
Proof.
  intros Hsave.
  destruct (_save_upload_tempfile_outcome _ _ _ _ _ Hsave)
    as [[_ [e ?]] | (p' & c & Hnone & Hfs & _ & Hret)]; [done|].
  destruct (Hret p eq_refl) as [-> ->].
  unfold Os.read_file, Os.getsize. rewrite Hfs, lookup_insert_eq. done.
Qed.

Lemma saved_reference_reads_back_witness :
  fs Demo.s0 !! Demo.ref_path = None
  ∧ Os.read_file Demo.ref_path (Demo.saved Demo.provider_ok 6 Demo.s0)
    = (Return (file (Demo.wav 6)), Demo.saved Demo.provider_ok 6 Demo.s0)
  ∧ Os.getsize Demo.ref_path (Demo.saved Demo.provider_ok 6 Demo.s0)
    = (Return (len (file (Demo.wav 6))), Demo.saved Demo.provider_ok 6 Demo.s0).
Proof.
  apply (saved_reference_reads_back Demo.provider_ok (Demo.wav 6) Demo.s0).
  by vm_compute.
Defined.

(** X2.  [_save_upload_tempfile] leaves every file that exists as it is,
    whether it returns or raises, and adds at most one file. *)
Theorem save_keeps_existing_files o upload s :
  let s1 := (_save_upload_tempfile o upload s).2 in
  (∀ q c, fs s !! q = Some c → fs s1 !! q = Some c)
  ∧ (∀ q q', fs s !! q = None → fs s !! q' = None →
             is_Some (fs s1 !! q) → is_Some (fs s1 !! q') → q = q').
Proof.
  destruct (_save_upload_tempfile o upload s) as [r s1] eqn:Hsave. simpl.
  destruct (_save_upload_tempfile_outcome _ _ _ _ _ Hsave)
    as [[-> _] | (p & c & Hnone & Hfs & _ & _)].
  - split; [done|]. intros q q' Hq _ [? Hq']. congruence.
  - rewrite Hfs. split.
    + intros q c' Hq. rewrite lookup_insert_ne; [done | congruence].
    + intros q q' Hq Hq' [x Hx] [x' Hx'].
      destruct (decide (p = q)) as [<-|]; [|by rewrite lookup_insert_ne, Hq in Hx].
      destruct (decide (p = q')) as [<-|]; [done|].
      by rewrite lookup_insert_ne, Hq' in Hx'.
Qed.

(** X3.  An empty upload is saved as an empty file without a single write:
    the loop stops at its first read, so even a disk on which every write
    fails does not stop it. *)
Theorem empty_upload_saved_without_writing o upload s name p :
  file upload = [] →
  filename upload = Some name →
  Tempfile.free_name (fs s) (tempdir s) "ref_"
    (if PyStr.is_empty (OsPath.splitext name).2 then ".wav" else (OsPath.splitext name).2)
    (ref_names o) = Some p →
  _save_upload_tempfile o upload s
  = (Return p, add_log (Created p) (set_fs (insert p []) s)).
Proof.
  intros Hfile Hname Hfree. unfold _save_upload_tempfile. rewrite Hname, Hfile.
  unfold bind at 1. unfold ret at 1.
  unfold bind at 1. unfold Tempfile.NamedTemporaryFile. rewrite Hfree.
  unfold bind, try_finally, ret. by rewrite copy_upload_step.
Qed.

Lemma empty_upload_saved_without_writing_witness :
  _save_upload_tempfile Demo.disk_full (Demo.wav 0) Demo.s0
  = (Return Demo.ref_path,
     add_log (Created Demo.ref_path) (set_fs (insert Demo.ref_path []) Demo.s0)).
Proof.
  apply (empty_upload_saved_without_writing Demo.disk_full (Demo.wav 0) Demo.s0
           "sample.wav" Demo.ref_path); by vm_compute.
Defined.

(** The last occurrence of a character is an occurrence. *)
Lemma rindex_Some_startswith c s i :
  PyStr.rindex c s = Some i → PyStr.startswith c (PyStr.drop i s) = true.
Proof.
  revert i. induction s as [|a s IH]; intros i; simpl; [done|].
  destruct (PyStr.rindex c s) as [j|].
  - intros [= <-]. simpl. by apply IH.
  - destruct (Ascii.eqb a c) eqn:Hac; [|done]. by intros [= <-].
Qed.

(** X4.  The reference file is named after the upload's extension: its path
    is the temporary directory joined with ["ref_"], one of the generator's
    names and a suffix that starts with a dot and has no slash, [".wav"]
    when the file name has no extension. *)
Theorem reference_path_shape o upload s p s1 :
  _save_upload_tempfile o upload s = (Return p, s1) →
  ∃ name n suffix,
    filename upload = Some name
    ∧ n ∈ ref_names o
    ∧ p = OsPath.join (tempdir s) ("ref_" +:+ n +:+ suffix)
    ∧ PyStr.startswith "."%char suffix = true
    ∧ PyStr.mem "/"%char suffix = false
    ∧ ((OsPath.splitext name).2 = EmptyString → suffix = ".wav")
    ∧ ((OsPath.splitext name).2 ≠ EmptyString → suffix = (OsPath.splitext name).2).
Proof.
  intros Hsave.
  apply _save_upload_tempfile_Return in Hsave as (name & suffix & Hname & Hsuffix & Hfree).
  apply free_name_Some in Hfree as (_ & n & Hn & ->).
  exists name, n, suffix. repeat split; try done.
  - subst suffix. destruct (PyStr.is_empty _) eqn:Hempty; [done|].
    revert Hempty. unfold OsPath.splitext.
    destruct (_ && _) eqn:Hc; [|done]. simpl. intros _.
    apply andb_prop in Hc as [Hlt _]. apply Z.ltb_lt in Hlt.
    unfold PyStr.rfind in *.
    destruct (PyStr.rindex "." name) as [d|] eqn:Hd.
    + rewrite Nat2Z.id. by apply rindex_Some_startswith.
    + destruct (PyStr.rindex "/" name); lia.
  - subst suffix. destruct (PyStr.is_empty _); [done|]. apply splitext_ext_no_slash.
  - intros Hext. subst suffix. by rewrite Hext.
  - intros Hext. subst suffix. by destruct ((OsPath.splitext name).2).
Qed.

Lemma reference_path_shape_witness :
  ∃ name n suffix,
    filename (mkUpload (Some "take.2/voice") (Demo.b 3)) = Some name
    ∧ n ∈ ref_names Demo.provider_ok
    ∧ "/tmp/ref_k3x9_a0b.wav" = OsPath.join (tempdir Demo.s0) ("ref_" +:+ n +:+ suffix)
    ∧ PyStr.startswith "."%char suffix = true
    ∧ PyStr.mem "/"%char suffix = false
    ∧ ((OsPath.splitext name).2 = EmptyString → suffix = ".wav")
    ∧ ((OsPath.splitext name).2 ≠ EmptyString → suffix = (OsPath.splitext name).2).
Proof.
  apply (reference_path_shape Demo.provider_ok (mkUpload (Some "take.2/voice") (Demo.b 3))
           Demo.s0 "/tmp/ref_k3x9_a0b.wav"
           (_save_upload_tempfile Demo.provider_ok
              (mkUpload (Some "take.2/voice") (Demo.b 3)) Demo.s0).2).
  by vm_compute.
Defined.

(** ** Removing a file *)


(** X6.  Removing a file a second time changes nothing: not the file
    system, not the log. *)
Theorem remove_file_twice path s :
  _remove_file path (_remove_file path s).2 = (Return tt, (_remove_file path s).2).
Proof.
  destruct path as [p|]; [|done].
  destruct (PyStr.is_empty p) eqn:Hp.
  { unfold _remove_file. run. by rewrite Hp. }
  destruct (fs s !! p) as [c|] eqn:Hfs.
  - rewrite (_remove_file_existing _ _ _ Hp Hfs).
    apply _remove_file_missing. simpl. apply lookup_delete_eq.
  - rewrite (_remove_file_missing _ _ Hfs). by apply _remove_file_missing.
Qed.

(** ** Writing the synthesized audio *)

(** The conversion is logged once, whatever becomes of it. *)
Lemma synthesize_log o voice_id text out_path s :
  log (synthesize_text_to_file o voice_id text out_path s).2
  = TtsConvert text voice_id "eleven_multilingual_v2" OUTPUT_FORMAT :: log s.
Proof.
  unfold synthesize_text_to_file.
  unfold bind at 1. unfold modify at 1.
  unfold bind at 1. unfold lift.
  destruct (tts_convert o text voice_id _ _) as [[chunks ending]|e]; [|done].
  unfold bind at 1. unfold Os.open_wb, modify.
  set (s1 := set_fs _ _).
  destruct (write_chunks_run out_path chunks s1 []) as (s' & Hrun & _ & Hlog).
  { subst s1. simpl. by rewrite lookup_insert_eq. }
  unfold bind at 1. simpl. rewrite Hrun.
  destruct ending as [e|]; simpl.
  - unfold bind, raise. simpl. by rewrite Hlog.
  - unfold bind at 1. unfold ret at 1. unfold bind.
    rewrite output_too_small_run.
    by destruct (match fs s' !! out_path with Some _ => _ | None => _ end);
      simpl; rewrite Hlog.
Qed.

(** What it takes for [synthesize_text_to_file] to return. *)
Lemma synthesize_Return o voice_id text out_path s x s' :
  synthesize_text_to_file o voice_id text out_path s = (Return x, s') →
  x = out_path
  ∧ ∃ chunks,
      tts_convert o text voice_id "eleven_multilingual_v2" OUTPUT_FORMAT
        = Return (chunks, None)
      ∧ 100 <= len (concat chunks)
      ∧ fs s' = <[out_path := concat chunks]> (fs s).
Proof.
  intros Hrun.
  destruct (tts_convert o text voice_id "eleven_multilingual_v2" OUTPUT_FORMAT)
    as [[chunks [e|]]|e] eqn:Hconv.
  - destruct (synthesize_interrupted o voice_id text out_path s chunks e Hconv)
      as (s0 & Hs0 & _). congruence.
  - destruct (synthesize_completed o voice_id text out_path s chunks Hconv)
      as (s0 & Hs0 & Hfs).
    rewrite Hs0 in Hrun. destruct (Z.ltb_spec (len (concat chunks)) 100); [done|].
    injection Hrun as <- <-. split; [done|]. by exists chunks.
  - destruct (synthesize_refused o voice_id text out_path s e Hconv) as (s0 & Hs0 & _).
    congruence.
Qed.

(** X7.  When [synthesize_text_to_file] returns, the output file holds
    exactly the chunks the provider yielded, in their order (whatever it
    held before, and the empty chunks adding nothing), at least 100 bytes of
    them; every other file is as it was. *)
Theorem synthesized_file_holds_the_chunks o voice_id text out_path s x s' :
  synthesize_text_to_file o voice_id text out_path s = (Return x, s') →
  ∃ chunks,
    tts_convert o text voice_id "eleven_multilingual_v2" OUTPUT_FORMAT
      = Return (chunks, None)
    ∧ x = out_path
    ∧ Os.read_file out_path s' = (Return (concat chunks), s')
    ∧ 100 <= len (concat chunks)
    ∧ ∀ q, q ≠ out_path → fs s' !! q = fs s !! q.
Proof.
  intros (-> & chunks & Hconv & Hsize & Hfs)%synthesize_Return.
  exists chunks. repeat split; try done.
  - unfold Os.read_file. by rewrite Hfs, lookup_insert_eq.
  - intros q Hq. rewrite Hfs. by rewrite lookup_insert_ne.
Qed.

Lemma synthesized_file_holds_the_chunks_witness :
  ∃ chunks,
    tts_convert Demo.provider_ok "hello world" "voice-1" "eleven_multilingual_v2"
      OUTPUT_FORMAT = Return (chunks, None)
    ∧ Demo.out_path = Demo.out_path
    ∧ Os.read_file Demo.out_path
        (synthesize_text_to_file Demo.provider_ok "voice-1" "hello world"
           Demo.out_path Demo.s0).2
      = (Return (concat chunks),
         (synthesize_text_to_file Demo.provider_ok "voice-1" "hello world"
            Demo.out_path Demo.s0).2)
    ∧ 100 <= len (concat chunks)
    ∧ ∀ q, q ≠ Demo.out_path →
           fs (synthesize_text_to_file Demo.provider_ok "voice-1" "hello world"
                 Demo.out_path Demo.s0).2 !! q = fs Demo.s0 !! q.
Proof.
  apply (synthesized_file_holds_the_chunks Demo.provider_ok "voice-1" "hello world"
           Demo.out_path Demo.s0 Demo.out_path).
  by vm_compute.
Defined.

(** X8.  How a failed synthesis leaves the output file.  When the
    conversion call itself raises, no file is touched.  When the iterator
    raises part-way, the file holds the chunks yielded until then, and the
    exception is the iterator's: the size check is not reached. *)
Theorem failed_synthesis_leaves o voice_id text out_path s :
  (∀ e, tts_convert o text voice_id "eleven_multilingual_v2" OUTPUT_FORMAT = Raise e →
        (synthesize_text_to_file o voice_id text out_path s).1 = Raise e
        ∧ fs (synthesize_text_to_file o voice_id text out_path s).2 = fs s)
  ∧ (∀ chunks e,
       tts_convert o text voice_id "eleven_multilingual_v2" OUTPUT_FORMAT
         = Return (chunks, Some e) →
       (synthesize_text_to_file o voice_id text out_path s).1 = Raise e
       ∧ fs (synthesize_text_to_file o voice_id text out_path s).2
         = <[out_path := concat chunks]> (fs s)).
Proof.
  split.
  - intros e Hconv.
    destruct (synthesize_refused o voice_id text out_path s e Hconv)
      as (s' & Hrun & Hfs).
    by rewrite Hrun.
  - intros chunks e Hconv.
    destruct (synthesize_interrupted o voice_id text out_path s chunks e Hconv)
      as (s' & Hrun & Hfs).
    by rewrite Hrun.
Qed.

(** ** The endpoint as a whole *)

Section outcomes.

Variables (cfg : config) (o : outside).

Lemma MAX_REF_BYTES_Raise s e s' :
  MAX_REF_BYTES s = (Raise e, s') → s' = s ∧ ∃ msg, e = ValueError msg.
Proof.
  unfold MAX_REF_BYTES. run.
  destruct (environ s !! "MAX_REF_BYTES") as [v|]; [|done].
  destruct (PyInt.of_string v); [done|]. intros [= <- <-]. eauto.
Qed.

Lemma save_block_Raise ref_audio max s e s' :
  save_block o ref_audio max s = (Raise e, s') →
  ∃ detail, e = HTTPException 500 ("Failed to save reference: " +:+ detail).
Proof.
  unfold save_block, try_except.
  destruct (bind _ _ s) as [[p|e0] s1]; [done|].
  unfold raise. intros [= <- <-]. eauto.
Qed.


(** What an authorized request can end with. *)
Lemma endpoint_authorized_outcome ref_audio text s r s' :
  synthesize_endpoint cfg o ref_audio text (BACKEND_ACCESS_KEY cfg) s = (r, s') →
  (∃ response, r = Return response ∧ status_code response = 200)
  ∨ (∃ detail, r = Raise (HTTPException 500 detail))
  ∨ (∃ msg, r = Raise (ValueError msg))
  ∨ (∃ msg, r = Raise (OSError msg)).
Proof.
  rewrite synthesize_endpoint_blocks.
  rewrite bool_decide_eq_false_2 by (by intros []).
  unfold bind at 1.
  destruct (MAX_REF_BYTES s) as [[max|e] s0] eqn:Hmax.
  2:{ apply MAX_REF_BYTES_Raise in Hmax as [_ [msg ->]].
      intros [= <- <-]. right; right; left. eauto. }
  unfold bind at 1.
  destruct (save_block o ref_audio max s0) as [[p|e] s1] eqn:Hsave.
  2:{ apply save_block_Raise in Hsave as [d ->].
      intros [= <- <-]. right; left. eauto. }
  unfold bind at 1.
  destruct (Tempfile.NamedTemporaryFile _ _ _ s1) as [[out_path|e] s2] eqn:Hout.
  2:{ apply NamedTemporaryFile_Raise in Hout as [_ [msg ->]].
      intros [= <- <-]. right; right; right. eauto. }
  unfold bind, modify. intros Hblock.
  destruct r as [response|e].
  - apply tts_block_Return in Hblock as [-> _]. left. eauto.
  - apply tts_block_Raise in Hblock as [e0 ->]. right; left. eauto.
Qed.

End outcomes.



(** X10.  The output file is allocated outside both guarded blocks and
    before the clean-up is queued: when no name is free for it, the
    [OSError] leaves the endpoint as it is (an internal server error), the
    saved reference file is still there and no removal is queued. *)
Theorem output_allocation_failure cfg o ref_audio text s max p s1 :
  MAX_REF_BYTES s = (Return max, s) →
  _save_upload_tempfile o ref_audio s = (Return p, s1) →
  len (file ref_audio) <= max →
  Tempfile.free_name (fs s1) (tempdir s1) "out_" ".mp3" (out_names o) = None →
  let run := synthesize_endpoint cfg o ref_audio text (BACKEND_ACCESS_KEY cfg) s in
  run = (Raise (OSError "[Errno 17] No usable temporary file name found"), s1)
  ∧ Framework.respond run.1 = Framework.InternalServerError
  ∧ fs run.2 !! p = Some (file ref_audio)
  ∧ tasks run.2 = tasks s.
Proof.
  intros Hmax Hsave Hsize Hfree run.
  destruct (saved_file_size _ _ _ _ _ Hsave) as [Hfs _].
  assert (run = (Raise (OSError "[Errno 17] No usable temporary file name found"), s1))
    as ->.
  { subst run. rewrite synthesize_endpoint_blocks.
    rewrite bool_decide_eq_false_2 by (by intros []).
    rewrite (bind_Return _ _ _ _ _ Hmax).
    rewrite (bind_Return _ _ _ _ _ (save_block_accepts _ _ _ _ _ _ _ Hsave Hfs Hsize)).
    unfold bind, Tempfile.NamedTemporaryFile. by rewrite Hfree. }
  repeat split; try done. simpl.
  destruct (_save_upload_tempfile_stable same_process o ref_audio s) as (_ & _ & Ht).
  by rewrite Hsave in Ht.
Qed.

Lemma output_allocation_failure_witness :
  let o := mkOutside ["k3x9_a0b"] [] (fun _ => None)
             (ivc_create Demo.provider_ok) (tts_convert Demo.provider_ok) in
  let run := synthesize_endpoint Demo.cfg o (Demo.wav 4) "hello world"
               (BACKEND_ACCESS_KEY Demo.cfg) Demo.s0 in
  run = (Raise (OSError "[Errno 17] No usable temporary file name found"),
         Demo.saved o 4 Demo.s0)
  ∧ Framework.respond run.1 = Framework.InternalServerError
  ∧ fs run.2 !! Demo.ref_path = Some (file (Demo.wav 4))
  ∧ tasks run.2 = tasks Demo.s0.
Proof.
  apply (output_allocation_failure Demo.cfg
           (mkOutside ["k3x9_a0b"] [] (fun _ => None)
              (ivc_create Demo.provider_ok) (tts_convert Demo.provider_ok))
           (Demo.wav 4) "hello world" Demo.s0 (10 * 1024 * 1024) Demo.ref_path);
    by vm_compute.
Defined.


(** X12.  The endpoint answers "401 Unauthorized" exactly when the key it is
    given differs from the secret; the comparison is the exact one of
    strings. *)
Theorem unauthorized_iff_key_differs cfg o ref_audio text x_api_key s :
  (synthesize_endpoint cfg o ref_audio text x_api_key s).1
  = Raise (HTTPException 401 "Unauthorized")
  ↔ x_api_key ≠ BACKEND_ACCESS_KEY cfg.
Proof.
  split.
  - intros Hrun ->.
    destruct (synthesize_endpoint cfg o ref_audio text (BACKEND_ACCESS_KEY cfg) s)
      as [r s'] eqn:Hend. simpl in Hrun. subst r.
    by apply endpoint_authorized_outcome in Hend
      as [(resp & ? & _) | [[d ?] | [[m ?] | [m ?]]]].
  - intros Hkey. by rewrite endpoint_unauthorized.
Qed.

(** ** A request from end to end *)






(** X14.  What an accepted request does, in order: it creates the reference
    file, creates the output file, asks the provider once for a clone named
    after the reference file, from the bytes of that file, and, only when
    the clone is made, asks once for the conversion of the caller's text
    with the voice id of the clone, the model [eleven_multilingual_v2] and
    the format [mp3_44100_128].  Nothing else is created, removed or asked
    before the endpoint is left. *)
Theorem accepted_request_trace cfg o ref_audio text s max p s1 out_path s2 :
  MAX_REF_BYTES s = (Return max, s) →
  _save_upload_tempfile o ref_audio s = (Return p, s1) →
  len (file ref_audio) <= max →
  Tempfile.NamedTemporaryFile (out_names o) ".mp3" "out_" s1 = (Return out_path, s2) →
  let run := synthesize_endpoint cfg o ref_audio text (BACKEND_ACCESS_KEY cfg) s in
  let clone := IvcCreate ("ref_clone_" +:+ OsPath.basename p) [file ref_audio] in
  (∀ e, ivc_create o ("ref_clone_" +:+ OsPath.basename p) [file ref_audio] = Raise e →
        log run.2 = clone :: Created out_path :: Created p :: log s)
  ∧ (∀ v, ivc_create o ("ref_clone_" +:+ OsPath.basename p) [file ref_audio] = Return v →
          log run.2 = TtsConvert text (voice_id v) "eleven_multilingual_v2" "mp3_44100_128"
                      :: clone :: Created out_path :: Created p :: log s).
Proof.
  intros Hmax Hsave Hsize Hout run clone.
  destruct (saved_file_size _ _ _ _ _ Hsave) as [Hfs _].
  assert (log s1 = Created p :: log s) as Hlog1.
  { destruct (_save_upload_tempfile_outcome _ _ _ _ _ Hsave)
      as [[_ [e ?]] | (p' & c & _ & _ & Hlog & Hret)]; [done|].
    by destruct (Hret p eq_refl) as [-> _]. }
  subst run.
  rewrite (endpoint_accepted cfg o _ text _ _ _ _ _ _ _ Hmax Hsave Hfs Hsize Hout).
  destruct (reference_kept _ _ _ _ _ _ _ _ Hfs Hout) as [Hne Hfs3].
  apply NamedTemporaryFile_Return in Hout as [_ ->].
  set (s3 := push_task _ _) in *.
  assert (fs s3 !! p = Some (file ref_audio)) as Href
    by (rewrite Hfs3; by rewrite lookup_insert_ne).
  assert (log s3 = Created out_path :: Created p :: log s) as Hlog3
    by (subst s3; simpl; by rewrite Hlog1).
  clearbody s3.
  subst clone. change ("ref_clone_" +:+ OsPath.basename p) with (clone_name_of p).
  unfold tts_block, try_except.
  split.
  - intros e He. unfold bind at 1.
    rewrite (create_voice_run _ _ _ _ _ Href), He. simpl. by rewrite Hlog3.
  - intros v Hv. unfold bind at 1.
    rewrite (create_voice_run _ _ _ _ _ Href), Hv.
    set (sA := add_log _ s3).
    assert (log sA = IvcCreate (clone_name_of p) [file ref_audio] :: log s3)
      as HlogA by done.
    clearbody sA.
    pose proof (synthesize_log o (voice_id v) text out_path sA) as Hlog.
    unfold bind at 1.
    destruct (synthesize_text_to_file o (voice_id v) text out_path sA) as [[x|e] s4];
      simpl in Hlog.
    + unfold bind, Os.read_file, ret.
      destruct (fs s4 !! out_path); simpl; by rewrite Hlog, HlogA, Hlog3.
    + simpl. by rewrite Hlog, HlogA, Hlog3.
Qed.

Lemma accepted_request_trace_witness :
  let run := synthesize_endpoint Demo.cfg Demo.provider_ok (Demo.wav 4) "hello world"
               (BACKEND_ACCESS_KEY Demo.cfg) Demo.s0 in
  let clone := IvcCreate ("ref_clone_" +:+ OsPath.basename Demo.ref_path)
                 [file (Demo.wav 4)] in
  (∀ e, ivc_create Demo.provider_ok ("ref_clone_" +:+ OsPath.basename Demo.ref_path)
          [file (Demo.wav 4)] = Raise e →
        log run.2 = clone :: Created Demo.out_path :: Created Demo.ref_path :: log Demo.s0)
  ∧ (∀ v, ivc_create Demo.provider_ok ("ref_clone_" +:+ OsPath.basename Demo.ref_path)
            [file (Demo.wav 4)] = Return v →
          log run.2 = TtsConvert "hello world" (voice_id v) "eleven_multilingual_v2"
                        "mp3_44100_128"
                      :: clone :: Created Demo.out_path :: Created Demo.ref_path
                      :: log Demo.s0).
Proof.
  apply (accepted_request_trace Demo.cfg Demo.provider_ok (Demo.wav 4) "hello world"
           Demo.s0 (10 * 1024 * 1024) Demo.ref_path (Demo.saved Demo.provider_ok 4 Demo.s0)
           Demo.out_path (Demo.allocated Demo.provider_ok 4 Demo.s0));
    by vm_compute.
Defined.

(** X15.  Once the size check has passed and the output file is allocated,
    the endpoint queues exactly two removals, of the reference file and then
    of the output file, and it does so before the first provider call:
    whatever the provider answers, they are what the request leaves
    queued. *)
Theorem accepted_request_queues_both_files cfg o ref_audio text s max p s1 out_path s2 :
  MAX_REF_BYTES s = (Return max, s) →
  _save_upload_tempfile o ref_audio s = (Return p, s1) →
  len (file ref_audio) <= max →
  Tempfile.NamedTemporaryFile (out_names o) ".mp3" "out_" s1 = (Return out_path, s2) →
  tasks (synthesize_endpoint cfg o ref_audio text (BACKEND_ACCESS_KEY cfg) s).2
  = tasks s ++ [Some p; Some out_path]
  ∧ p ≠ out_path.
Proof.
  intros Hmax Hsave Hsize Hout.
  destruct (saved_file_size _ _ _ _ _ Hsave) as [Hfs _].
  split.
  - apply (accepted_tasks cfg o ref_audio text s s1 s2 max p out_path
             (file ref_audio) Hmax Hsave Hfs Hsize Hout).
  - by destruct (reference_kept _ _ _ _ _ _ _ _ Hfs Hout).
Qed.

Lemma accepted_request_queues_both_files_witness :
  tasks (synthesize_endpoint Demo.cfg Demo.clone_refused (Demo.wav 4) "hello world"
           (BACKEND_ACCESS_KEY Demo.cfg) Demo.s0).2
  = tasks Demo.s0 ++ [Some Demo.ref_path; Some Demo.out_path]
  ∧ Demo.ref_path ≠ Demo.out_path.
Proof.
  apply (accepted_request_queues_both_files Demo.cfg Demo.clone_refused (Demo.wav 4)
           "hello world" Demo.s0 (10 * 1024 * 1024) Demo.ref_path
           (Demo.saved Demo.clone_refused 4 Demo.s0) Demo.out_path
           (Demo.allocated Demo.clone_refused 4 Demo.s0));
    by vm_compute.
Defined.
